(** * SentenceApp: the browser-side controller of the message board

    A shallow embedding of [public/script.js] (class [SentenceApp]) and the
    properties of its filter / fetch / render cycle.

    Conventions of the model.
    - A JavaScript string is a [string]: the sequence of the bytes of its
      UTF-8 encoding.
    - The controller's fields and the part of the DOM it touches form one
      record, [World]; every method is a function on worlds.
    - An [async] method is a resumption ([Run]): it runs on the world until
      its next [await], where it gives the world back together with the
      request it waits for and the continuation to resume with the reply.
      The continuation receives the world as it is when the reply arrives,
      which other handlers may have changed in the meantime.
    - The page is an event loop ([react]) over the world and the pool of
      suspended continuations; time is a clock in milliseconds that the
      event [Elapse] advances. *)

From Stdlib Require Import String Ascii List Bool Arith Lia.
From Stdlib Require Import DecimalString.
Import ListNotations.
Open Scope list_scope.
Open Scope string_scope.

(* ================================================================== *)
(** * Strings of the platform *)
(* ================================================================== *)

(** [Array.prototype.join]. *)
Fixpoint join (sep : string) (parts : list string) : string :=
  match parts with
  | [] => ""
  | [p] => p
  | p :: rest => p ++ sep ++ join sep rest
  end.

(** The template literal [`${n}`] of a length. *)
Definition string_of_nat (n : nat) : string :=
  NilEmpty.string_of_uint (Nat.to_uint n).

Fixpoint strip_prefix (p s : string) : option string :=
  match p, s with
  | EmptyString, _ => Some s
  | String a p', String b s' =>
      if Ascii.eqb a b then strip_prefix p' s' else None
  | String _ _, EmptyString => None
  end.

Fixpoint rev_string_onto (s acc : string) : string :=
  match s with
  | EmptyString => acc
  | String c s' => rev_string_onto s' (String c acc)
  end.

Definition rev_string (s : string) : string := rev_string_onto s "".

Definition byte (n : nat) : string := String (ascii_of_nat n) "".

(** The code points ECMAScript counts as WhiteSpace or LineTerminator, each
    as its UTF-8 bytes: TAB LF VT FF CR SPACE, U+00A0, U+1680,
    U+2000..U+200A, U+2028, U+2029, U+202F, U+205F, U+3000, U+FEFF. *)
Definition js_whitespace : list string :=
  List.concat
    [ map byte [9; 10; 11; 12; 13; 32];
      [byte 194 ++ byte 160; byte 225 ++ byte 154 ++ byte 128];
      map (fun n => byte 226 ++ byte 128 ++ byte n)
          [128; 129; 130; 131; 132; 133; 134; 135; 136; 137; 138;
           168; 169; 175];
      [byte 226 ++ byte 129 ++ byte 159; byte 227 ++ byte 128 ++ byte 128;
       byte 239 ++ byte 187 ++ byte 191] ].

Fixpoint strip_any (ws : list string) (s : string) : option string :=
  match ws with
  | [] => None
  | w :: ws' =>
      match strip_prefix w s with
      | Some s' => Some s'
      | None => strip_any ws' s
      end
  end.

Fixpoint strip_all (ws : list string) (fuel : nat) (s : string) : string :=
  match fuel with
  | O => s
  | S fuel' =>
      match strip_any ws s with
      | Some s' => strip_all ws fuel' s'
      | None => s
      end
  end.

(** [String.prototype.trimStart], [trimEnd] and [trim]. Every white space
    sequence is at least one byte long, so the length of the string is
    enough fuel. *)
Definition trimStart (s : string) : string :=
  strip_all js_whitespace (String.length s) s.

Definition trimEnd (s : string) : string :=
  rev_string
    (strip_all (map rev_string js_whitespace) (String.length s)
       (rev_string s)).

Definition trim (s : string) : string := trimEnd (trimStart s).

(** A string as a condition: only the empty string is falsy. *)
Definition truthy (s : string) : bool :=
  match s with EmptyString => false | String _ _ => true end.

(** [charAt(0).toUpperCase() + slice(1)], on the ASCII letters. *)
Definition capitalize (s : string) : string :=
  match s with
  | EmptyString => ""
  | String c s' =>
      let n := nat_of_ascii c in
      if ((97 <=? n) && (n <=? 122))%nat
      then String (ascii_of_nat (n - 32)) s'
      else s
  end.

(** [escapeHtml]: the text is stored as the [textContent] of a detached
    [div] and read back as [innerHTML]; the serialisation of a text node
    replaces the ampersand, the two angle brackets and U+00A0. *)
Fixpoint escapeHtml (text : string) : string :=
  match text with
  | EmptyString => ""
  | String c rest =>
      match nat_of_ascii c with
      | 38 => "&amp;" ++ escapeHtml rest
      | 60 => "&lt;" ++ escapeHtml rest
      | 62 => "&gt;" ++ escapeHtml rest
      | 194 =>
          match rest with
          | String d rest' =>
              if Nat.eqb (nat_of_ascii d) 160
              then "&nbsp;" ++ escapeHtml rest'
              else String c (escapeHtml rest)
          | EmptyString => String c ""
          end
      | _ => String c (escapeHtml rest)
      end
  end.

(* ================================================================== *)
(** * URLSearchParams *)
(* ================================================================== *)

(** A plain object used as a record: its own string keys in insertion
    order. [None] stands for [undefined]. *)
Definition JsObject := list (string * string).

Fixpoint obj_get (key : string) (o : JsObject) : option string :=
  match o with
  | [] => None
  | (k, v) :: o' => if String.eqb k key then Some v else obj_get key o'
  end.

(** [o[key] = value]: an existing key keeps its place, a new one goes
    last. *)
Fixpoint obj_set (key value : string) (o : JsObject) : JsObject :=
  match o with
  | [] => [(key, value)]
  | (k, v) :: o' =>
      if String.eqb k key then (k, value) :: o'
      else (k, v) :: obj_set key value o'
  end.

Definition obj_keys (o : JsObject) : list string := map fst o.

(** The bytes the application/x-www-form-urlencoded serialiser leaves as
    they are: ASCII letters and digits and the four marks * - . _ *)
Definition is_unreserved (c : ascii) : bool :=
  let n := nat_of_ascii c in
  (((48 <=? n) && (n <=? 57)) || ((65 <=? n) && (n <=? 90))
   || ((97 <=? n) && (n <=? 122))
   || (n =? 42) || (n =? 45) || (n =? 46) || (n =? 95))%nat.

Definition hex_digit (n : nat) : ascii :=
  if (n <? 10)%nat then ascii_of_nat (48 + n) else ascii_of_nat (55 + n).

Definition percent_byte (c : ascii) : string :=
  let n := nat_of_ascii c in
  String "%" (String (hex_digit (n / 16)) (String (hex_digit (n mod 16)) "")).

Definition urlencode_byte (c : ascii) : string :=
  if is_unreserved c then String c ""
  else if Ascii.eqb c " " then "+"
  else percent_byte c.

Fixpoint urlencode (s : string) : string :=
  match s with
  | EmptyString => ""
  | String c s' => urlencode_byte c ++ urlencode s'
  end.

(** [new URLSearchParams(o).toString()]: one [name=value] per own key of
    the object, in order, joined by an ampersand. *)
Definition urlencode_pair (kv : string * string) : string :=
  urlencode (fst kv) ++ "=" ++ urlencode (snd kv).

Definition URLSearchParams_toString (o : JsObject) : string :=
  join "&" (map urlencode_pair o).

(** ** Reading a query string back

    What a reader of the URL sees: the standard parser of the same format.
    It is not part of the controller; the first claim is stated with it. *)

Definition hex_value (c : ascii) : option nat :=
  let n := nat_of_ascii c in
  if ((48 <=? n) && (n <=? 57))%nat then Some (n - 48)
  else if ((65 <=? n) && (n <=? 70))%nat then Some (n - 55)
  else if ((97 <=? n) && (n <=? 102))%nat then Some (n - 87)
  else None.

Fixpoint urldecode (s : string) : string :=
  match s with
  | EmptyString => ""
  | String c rest =>
      if Ascii.eqb c "+" then String " " (urldecode rest)
      else if Ascii.eqb c "%" then
        match rest with
        | String h (String l rest') =>
            match hex_value h, hex_value l with
            | Some a, Some b =>
                String (ascii_of_nat (16 * a + b)) (urldecode rest')
            | _, _ => String c (urldecode rest)
            end
        | _ => String c (urldecode rest)
        end
      else String c (urldecode rest)
  end.

(** [split]: the pieces between the occurrences of a separator byte. *)
Fixpoint split_on (d : ascii) (s : string) : list string :=
  match s with
  | EmptyString => [""]
  | String c s' =>
      if Ascii.eqb c d then "" :: split_on d s'
      else match split_on d s' with
           | piece :: pieces => String c piece :: pieces
           | [] => [String c ""]
           end
  end.

(** The name before the first separator and the value after it. *)
Fixpoint split_first (d : ascii) (s : string) : string * string :=
  match s with
  | EmptyString => ("", "")
  | String c s' =>
      if Ascii.eqb c d then ("", s')
      else let (name, value) := split_first d s' in (String c name, value)
  end.

Definition parse_pair (piece : string) : string * string :=
  let (name, value) := split_first "=" piece in
  (urldecode name, urldecode value).

Definition parse_query (q : string) : list (string * string) :=
  map parse_pair (filter truthy (split_on "&" q)).

(** The query keys of a URL: what follows its first question mark. *)
Definition query_of_url (url : string) : string :=
  snd (split_first "?" url).


(* ================================================================== *)
(** * Data model *)
(* ================================================================== *)

(** A sentence as the list endpoint returns it. *)
Record Sentence : Type := mkSentence {
  _id : string;
  text : string;
  name : string;
  category : string;
  createdAt : string
}.

(** The body of a create request: [JSON.stringify({ text, name, category })]. *)
Record NewSentence : Type := mkNewSentence {
  new_text : string;
  new_name : string;
  new_category : string
}.

Inductive Request : Type :=
| GET (url : string)
| POST (url : string) (body : NewSentence)
| DELETE (url : string).

(** What [response.json()] finds in a body. The endpoints answer with an
    array of user names, an array of sentences or an object that may carry
    an [error] string; a body that is not JSON makes the parser reject with
    the platform's message. Bodies are typed by this contract: where a
    method is handed a body of another shape than the one its endpoint
    returns, the model raises the TypeError of iterating what is not an
    array, in the same [try] block. *)
Inductive Body : Type :=
| Malformed (parser_message : string)
| UserNames (users : list string)
| Sentences (sentences : list Sentence)
| ErrorObject (error : option string).

(** A response, with the request it answers (its [url]). *)
Record Response : Type := mkResponse {
  request : Request;
  status : nat;
  body : Body
}.

(** [response.ok]. *)
Definition ok (response : Response) : bool :=
  ((200 <=? status response) && (status response <=? 299))%nat.

(** How a [fetch] settles: the promise rejects (no answer from the
    network) or resolves with a status and a body. *)
Inductive FetchReply : Type :=
| NetworkError (message : string)
| Arrived (status : nat) (body : Body).

(** ** The part of the document the controller touches *)

Record Select : Type := mkSelect {
  options : list (string * string);   (* value and label of each option *)
  value : string
}.

(** Assigning [select.value]: a value no option has leaves nothing
    selected. *)
Definition select_value (v : string) (s : Select) : Select :=
  mkSelect (options s)
    (if existsb (fun o => String.eqb (fst o) v) (options s) then v else "").

(** The user picks an entry of the control. *)
Definition pick (v : string) (s : Select) : Select := mkSelect (options s) v.

Record Button : Type := mkButton {
  textContent : string;
  disabled : bool
}.

(** One rendered sentence, by the values its markup is built from.
    [posted_on] is the [createdAt] stamp the item shows in the reader's
    locale; [delete_btn] is the [data-id] of the delete button when the
    item has one. *)
Record Item : Type := mkItem {
  className : string;
  author_name : string;
  badge_class : string;
  category_badge : string;
  sentence_text : string;
  posted_on : string;
  delete_btn : option string
}.

(** An entry of the list: a sentence or an [empty-state] line (with its
    inline style). *)
Inductive Li : Type :=
| SentenceItem (item : Item)
| EmptyState (style : string) (message : string).

Inductive Dialog : Type :=
| Alert (message : string)
| Confirm (message : string) (answer : bool).

(** ** The world of the controller

    The fields of [this] (the cached arrays, the filter object, the id of
    the search timer), the elements of the page by what the controller
    reads or writes of them ([activeFilters] is the text of the summary
    line, [sentencesList] the entries of the list), and the window: the
    location, the dialogs shown so far, what was logged as an error, the
    pending timers as pairs of an id and the time they are due, the next
    timer id, and the clock in milliseconds. *)
Record World : Type := mkWorld {
  allSentences : list Sentence;
  allUsers : list string;
  currentFilters : JsObject;
  searchTimeout : option nat;
  nameInput : string;
  categorySelect : Select;
  sentenceInput : string;
  addSentenceBtn : Button;
  searchInput : string;
  categoryFilter : Select;
  userFilter : Select;
  sortBy : Select;
  activeFilters : string;
  sentencesList : list Li;
  sentencesCount : string;
  location : string;
  dialogs : list Dialog;
  console : list string;
  timers : list (nat * nat);
  next_timer : nat;
  now : nat
}.

Definition set_allSentences (v : list Sentence) (w : World) : World :=
  mkWorld v (allUsers w) (currentFilters w) (searchTimeout w) (nameInput w)
  (categorySelect w) (sentenceInput w) (addSentenceBtn w) (searchInput w)
  (categoryFilter w) (userFilter w) (sortBy w) (activeFilters w)
  (sentencesList w) (sentencesCount w) (location w) (dialogs w) (console w)
  (timers w) (next_timer w) (now w).

Definition set_allUsers (v : list string) (w : World) : World :=
  mkWorld (allSentences w) v (currentFilters w) (searchTimeout w) (nameInput
  w) (categorySelect w) (sentenceInput w) (addSentenceBtn w) (searchInput w)
  (categoryFilter w) (userFilter w) (sortBy w) (activeFilters w)
  (sentencesList w) (sentencesCount w) (location w) (dialogs w) (console w)
  (timers w) (next_timer w) (now w).

Definition set_currentFilters (v : JsObject) (w : World) : World :=
  mkWorld (allSentences w) (allUsers w) v (searchTimeout w) (nameInput w)
  (categorySelect w) (sentenceInput w) (addSentenceBtn w) (searchInput w)
  (categoryFilter w) (userFilter w) (sortBy w) (activeFilters w)
  (sentencesList w) (sentencesCount w) (location w) (dialogs w) (console w)
  (timers w) (next_timer w) (now w).

Definition set_searchTimeout (v : option nat) (w : World) : World :=
  mkWorld (allSentences w) (allUsers w) (currentFilters w) v (nameInput w)
  (categorySelect w) (sentenceInput w) (addSentenceBtn w) (searchInput w)
  (categoryFilter w) (userFilter w) (sortBy w) (activeFilters w)
  (sentencesList w) (sentencesCount w) (location w) (dialogs w) (console w)
  (timers w) (next_timer w) (now w).

Definition set_nameInput (v : string) (w : World) : World :=
  mkWorld (allSentences w) (allUsers w) (currentFilters w) (searchTimeout w)
  v (categorySelect w) (sentenceInput w) (addSentenceBtn w) (searchInput w)
  (categoryFilter w) (userFilter w) (sortBy w) (activeFilters w)
  (sentencesList w) (sentencesCount w) (location w) (dialogs w) (console w)
  (timers w) (next_timer w) (now w).

Definition set_categorySelect (v : Select) (w : World) : World :=
  mkWorld (allSentences w) (allUsers w) (currentFilters w) (searchTimeout w)
  (nameInput w) v (sentenceInput w) (addSentenceBtn w) (searchInput w)
  (categoryFilter w) (userFilter w) (sortBy w) (activeFilters w)
  (sentencesList w) (sentencesCount w) (location w) (dialogs w) (console w)
  (timers w) (next_timer w) (now w).

Definition set_sentenceInput (v : string) (w : World) : World :=
  mkWorld (allSentences w) (allUsers w) (currentFilters w) (searchTimeout w)
  (nameInput w) (categorySelect w) v (addSentenceBtn w) (searchInput w)
  (categoryFilter w) (userFilter w) (sortBy w) (activeFilters w)
  (sentencesList w) (sentencesCount w) (location w) (dialogs w) (console w)
  (timers w) (next_timer w) (now w).

Definition set_addSentenceBtn (v : Button) (w : World) : World :=
  mkWorld (allSentences w) (allUsers w) (currentFilters w) (searchTimeout w)
  (nameInput w) (categorySelect w) (sentenceInput w) v (searchInput w)
  (categoryFilter w) (userFilter w) (sortBy w) (activeFilters w)
  (sentencesList w) (sentencesCount w) (location w) (dialogs w) (console w)
  (timers w) (next_timer w) (now w).

Definition set_searchInput (v : string) (w : World) : World :=
  mkWorld (allSentences w) (allUsers w) (currentFilters w) (searchTimeout w)
  (nameInput w) (categorySelect w) (sentenceInput w) (addSentenceBtn w) v
  (categoryFilter w) (userFilter w) (sortBy w) (activeFilters w)
  (sentencesList w) (sentencesCount w) (location w) (dialogs w) (console w)
  (timers w) (next_timer w) (now w).

Definition set_categoryFilter (v : Select) (w : World) : World :=
  mkWorld (allSentences w) (allUsers w) (currentFilters w) (searchTimeout w)
  (nameInput w) (categorySelect w) (sentenceInput w) (addSentenceBtn w)
  (searchInput w) v (userFilter w) (sortBy w) (activeFilters w)
  (sentencesList w) (sentencesCount w) (location w) (dialogs w) (console w)
  (timers w) (next_timer w) (now w).

Definition set_userFilter (v : Select) (w : World) : World :=
  mkWorld (allSentences w) (allUsers w) (currentFilters w) (searchTimeout w)
  (nameInput w) (categorySelect w) (sentenceInput w) (addSentenceBtn w)
  (searchInput w) (categoryFilter w) v (sortBy w) (activeFilters w)
  (sentencesList w) (sentencesCount w) (location w) (dialogs w) (console w)
  (timers w) (next_timer w) (now w).

Definition set_sortBy (v : Select) (w : World) : World :=
  mkWorld (allSentences w) (allUsers w) (currentFilters w) (searchTimeout w)
  (nameInput w) (categorySelect w) (sentenceInput w) (addSentenceBtn w)
  (searchInput w) (categoryFilter w) (userFilter w) v (activeFilters w)
  (sentencesList w) (sentencesCount w) (location w) (dialogs w) (console w)
  (timers w) (next_timer w) (now w).

Definition set_activeFilters (v : string) (w : World) : World :=
  mkWorld (allSentences w) (allUsers w) (currentFilters w) (searchTimeout w)
  (nameInput w) (categorySelect w) (sentenceInput w) (addSentenceBtn w)
  (searchInput w) (categoryFilter w) (userFilter w) (sortBy w) v
  (sentencesList w) (sentencesCount w) (location w) (dialogs w) (console w)
  (timers w) (next_timer w) (now w).

Definition set_sentencesList (v : list Li) (w : World) : World :=
  mkWorld (allSentences w) (allUsers w) (currentFilters w) (searchTimeout w)
  (nameInput w) (categorySelect w) (sentenceInput w) (addSentenceBtn w)
  (searchInput w) (categoryFilter w) (userFilter w) (sortBy w)
  (activeFilters w) v (sentencesCount w) (location w) (dialogs w) (console
  w) (timers w) (next_timer w) (now w).

Definition set_sentencesCount (v : string) (w : World) : World :=
  mkWorld (allSentences w) (allUsers w) (currentFilters w) (searchTimeout w)
  (nameInput w) (categorySelect w) (sentenceInput w) (addSentenceBtn w)
  (searchInput w) (categoryFilter w) (userFilter w) (sortBy w)
  (activeFilters w) (sentencesList w) v (location w) (dialogs w) (console w)
  (timers w) (next_timer w) (now w).

Definition set_location (v : string) (w : World) : World :=
  mkWorld (allSentences w) (allUsers w) (currentFilters w) (searchTimeout w)
  (nameInput w) (categorySelect w) (sentenceInput w) (addSentenceBtn w)
  (searchInput w) (categoryFilter w) (userFilter w) (sortBy w)
  (activeFilters w) (sentencesList w) (sentencesCount w) v (dialogs w)
  (console w) (timers w) (next_timer w) (now w).

Definition set_dialogs (v : list Dialog) (w : World) : World :=
  mkWorld (allSentences w) (allUsers w) (currentFilters w) (searchTimeout w)
  (nameInput w) (categorySelect w) (sentenceInput w) (addSentenceBtn w)
  (searchInput w) (categoryFilter w) (userFilter w) (sortBy w)
  (activeFilters w) (sentencesList w) (sentencesCount w) (location w) v
  (console w) (timers w) (next_timer w) (now w).

Definition set_console (v : list string) (w : World) : World :=
  mkWorld (allSentences w) (allUsers w) (currentFilters w) (searchTimeout w)
  (nameInput w) (categorySelect w) (sentenceInput w) (addSentenceBtn w)
  (searchInput w) (categoryFilter w) (userFilter w) (sortBy w)
  (activeFilters w) (sentencesList w) (sentencesCount w) (location w)
  (dialogs w) v (timers w) (next_timer w) (now w).

Definition set_timers (v : list (nat * nat)) (w : World) : World :=
  mkWorld (allSentences w) (allUsers w) (currentFilters w) (searchTimeout w)
  (nameInput w) (categorySelect w) (sentenceInput w) (addSentenceBtn w)
  (searchInput w) (categoryFilter w) (userFilter w) (sortBy w)
  (activeFilters w) (sentencesList w) (sentencesCount w) (location w)
  (dialogs w) (console w) v (next_timer w) (now w).

Definition set_next_timer (v : nat) (w : World) : World :=
  mkWorld (allSentences w) (allUsers w) (currentFilters w) (searchTimeout w)
  (nameInput w) (categorySelect w) (sentenceInput w) (addSentenceBtn w)
  (searchInput w) (categoryFilter w) (userFilter w) (sortBy w)
  (activeFilters w) (sentencesList w) (sentencesCount w) (location w)
  (dialogs w) (console w) (timers w) v (now w).

Definition set_now (v : nat) (w : World) : World :=
  mkWorld (allSentences w) (allUsers w) (currentFilters w) (searchTimeout w)
  (nameInput w) (categorySelect w) (sentenceInput w) (addSentenceBtn w)
  (searchInput w) (categoryFilter w) (userFilter w) (sortBy w)
  (activeFilters w) (sentencesList w) (sentencesCount w) (location w)
  (dialogs w) (console w) (timers w) (next_timer w) v.

Definition alert (message : string) (w : World) : World :=
  set_dialogs (app (dialogs w) [Alert message]) w.

Definition console_error (label error : string) (w : World) : World :=
  set_console (app (console w) [label ++ " " ++ error]) w.

(** [setTimeout(callback, delay)]: the only callback of the page is the
    search one, so a pending timer is its id and the time it is due. *)
Definition setTimeout (delay : nat) (w : World) : nat * World :=
  (next_timer w,
   set_next_timer (S (next_timer w))
     (set_timers (app (timers w) [(next_timer w, now w + delay)]) w)).

(** [clearTimeout(id)]; [null] and the id of a timer that is gone are
    ignored. *)
Definition clearTimeout (id : option nat) (w : World) : World :=
  match id with
  | None => w
  | Some i =>
      set_timers (filter (fun t => negb (Nat.eqb (fst t) i)) (timers w)) w
  end.

(* ================================================================== *)
(** * Asynchronous methods *)
(* ================================================================== *)

Inductive Result (A : Type) : Type :=
| Ok (a : A)
| Thrown (message : string).

Arguments Ok {A} a.
Arguments Thrown {A} message.

(** A method in progress: finished, or suspended at [await fetch(...)] or
    at [await response.json()]. *)
Inductive Run (A : Type) : Type :=
| Done (w : World) (r : Result A)
| AwaitFetch (w : World) (req : Request)
    (k : FetchReply -> World -> Run A)
| AwaitJson (w : World) (response : Response) (k : World -> Run A).

Arguments Done {A} w r.
Arguments AwaitFetch {A} w req k.
Arguments AwaitJson {A} w response k.

Definition Async (A : Type) : Type := World -> Run A.

Definition ret {A} (a : A) : Async A := fun w => Done w (Ok a).

Definition throw {A} (message : string) : Async A :=
  fun w => Done w (Thrown message).

Fixpoint bind_run {A B} (r : Run A) (f : A -> Async B) : Run B :=
  match r with
  | Done w (Ok a) => f a w
  | Done w (Thrown e) => Done w (Thrown e)
  | AwaitFetch w req k =>
      AwaitFetch w req (fun reply w' => bind_run (k reply w') f)
  | AwaitJson w resp k => AwaitJson w resp (fun w' => bind_run (k w') f)
  end.

Definition bind {A B} (m : Async A) (f : A -> Async B) : Async B :=
  fun w => bind_run (m w) f.

Notation "x <- m ;; k" := (bind m (fun x => k))
  (at level 61, m at next level, right associativity).
Notation "m ;; k" := (bind m (fun _ => k))
  (at level 61, right associativity).

(** [try { ... } catch (error) { ... }]. *)
Fixpoint catch_run {A} (r : Run A) (handler : string -> Async A) : Run A :=
  match r with
  | Done w (Ok a) => Done w (Ok a)
  | Done w (Thrown e) => handler e w
  | AwaitFetch w req k =>
      AwaitFetch w req (fun reply w' => catch_run (k reply w') handler)
  | AwaitJson w resp k =>
      AwaitJson w resp (fun w' => catch_run (k w') handler)
  end.

Definition try_catch {A} (m : Async A) (handler : string -> Async A)
  : Async A :=
  fun w => catch_run (m w) handler.

(** [try { ... } finally { ... }] with a block of plain assignments. *)
Fixpoint finally_run {A} (r : Run A) (cleanup : World -> World) : Run A :=
  match r with
  | Done w res => Done (cleanup w) res
  | AwaitFetch w req k =>
      AwaitFetch w req (fun reply w' => finally_run (k reply w') cleanup)
  | AwaitJson w resp k =>
      AwaitJson w resp (fun w' => finally_run (k w') cleanup)
  end.

Definition try_finally {A} (m : Async A) (cleanup : World -> World)
  : Async A :=
  fun w => finally_run (m w) cleanup.

(** A run of plain statements. *)
Definition act (f : World -> World) : Async unit :=
  fun w => Done (f w) (Ok tt).

(** [await fetch(req)]. *)
Definition fetch (req : Request) : Async Response :=
  fun w =>
    AwaitFetch w req (fun reply w' =>
      match reply with
      | NetworkError e => Done w' (Thrown e)
      | Arrived st b => Done w' (Ok (mkResponse req st b))
      end).

(** [await response.json()]. *)
Definition json (response : Response) : Async Body :=
  fun w =>
    AwaitJson w response (fun w' =>
      match body response with
      | Malformed e => Done w' (Thrown e)
      | b => Done w' (Ok b)
      end).

(* ================================================================== *)
(** * class SentenceApp *)
(* ================================================================== *)

Definition default_filters : JsObject :=
  [("category", "all"); ("user", "all"); ("sortBy", "newest");
   ("search", "")].

(** The window of a page that has just been loaded: no dialog shown,
    nothing logged, no timer set, the clock at zero. The document itself
    (the fields of the DOM) is the one of [d]. *)
Definition page_load (d : World) : World :=
  set_dialogs []
    (set_console [] (set_timers [] (set_next_timer 1 (set_now 0 d)))).

(** The constructor, before it calls [init]. *)
Definition constructor (w : World) : World :=
  set_searchTimeout None
    (set_currentFilters default_filters
       (set_allUsers [] (set_allSentences [] w))).

Definition categoryMap : JsObject :=
  [("thoughts", "💭 Thoughts"); ("quotes", "💬 Quotes");
   ("stories", "📖 Stories"); ("jokes", "😂 Jokes");
   ("questions", "❓ Questions"); ("facts", "🔍 Facts");
   ("other", "📌 Other")].

(** [categoryMap[category] || category], over the own keys of the map. *)
Definition getCategoryDisplayName (category : string) : string :=
  match obj_get category categoryMap with
  | Some display => if truthy display then display else category
  | None => category
  end.

(** A value inside a template literal: [undefined] prints its name. *)
Definition show (v : option string) : string :=
  match v with Some s => s | None => "undefined" end.

(** ** Rendering *)

Definition render_item (currentUser : string) (sentence : Sentence) : Li :=
  SentenceItem
    {| className := "sentence-item " ++ category sentence;
       author_name := escapeHtml (name sentence);
       badge_class := "category-badge category-" ++ category sentence;
       category_badge := getCategoryDisplayName (category sentence);
       sentence_text := escapeHtml (text sentence);
       posted_on := createdAt sentence;
       delete_btn :=
         if String.eqb (name sentence) currentUser
         then Some (_id sentence) else None |}.

Definition appendChild (li : Li) (w : World) : World :=
  set_sentencesList (app (sentencesList w) [li]) w.

Definition renderSentences (w : World) : World :=
  let w1 :=
    set_sentencesCount
      (string_of_nat (List.length (allSentences w)) ++ " Messages")
      (set_sentencesList [] w) in
  if Nat.eqb (List.length (allSentences w)) 0 then
    set_sentencesList
      [EmptyState "" "No messages found matching your criteria."] w1
  else
    let currentUser := nameInput w in
    fold_left
      (fun w' sentence => appendChild (render_item currentUser sentence) w')
      (allSentences w) w1.

Definition quote : string := String (ascii_of_nat 34) "".

(** The parts of the summary line. Reading [sortBy] off a filter object
    that has no such key raises a TypeError at [charAt]. *)
Definition filter_parts (f : JsObject) : list string :=
  app (match obj_get "category" f with
       | Some c =>
           if String.eqb c "all" then []
           else ["Category: **" ++ getCategoryDisplayName c ++ "**"]
       | None => ["Category: **undefined**"]
       end)
   (app (match obj_get "user" f with
         | Some u =>
             if String.eqb u "all" then []
             else ["User: **" ++ u ++ "**"]
         | None => ["User: **undefined**"]
         end)
        (match obj_get "search" f with
         | Some s =>
             if truthy s && truthy (trim s)
             then ["Search: **" ++ quote ++ s ++ quote ++ "**"]
             else []
         | None => []
         end)).

Definition renderActiveFiltersText : Async unit :=
  fun w =>
    let w1 := set_activeFilters "" w in
    match obj_get "sortBy" (currentFilters w) with
    | None =>
        Done w1
          (Thrown "Cannot read properties of undefined (reading 'charAt')")
    | Some s =>
        let parts :=
          app (filter_parts (currentFilters w))
            ["Sorted by: **" ++ capitalize s ++ "**"] in
        if Nat.ltb 0 (List.length parts) then
          Done (set_activeFilters ("Current View: " ++ join " | " parts) w1)
            (Ok tt)
        else Done w1 (Ok tt)
    end.

(** ** Data loading and filtering *)

Definition all_users_option : list (string * string) :=
  [("all", "All Users")].

Definition add_option (username : string) (s : Select) : Select :=
  mkSelect (app (options s) [(username, username)]) (value s).

Definition loadUsersForFilter : Async unit :=
  try_catch
    (response <- fetch (GET "/api/sentences/users") ;;
     if negb (ok response) then throw "Failed to load users"
     else
       data <- json response ;;
       match data with
       | UserNames users =>
           act (fun w =>
             let cleared := mkSelect all_users_option "all" in
             let filled := fold_left (fun s u => add_option u s) users cleared in
             set_userFilter
               (select_value (show (obj_get "user" (currentFilters w)))
                  filled)
               (set_allUsers users w))
       | _ => throw "this.allUsers.forEach is not a function"
       end)
    (fun error => act (console_error "❌ Error loading users:" error)).

Definition sentences_url (w : World) : string :=
  "/api/sentences?" ++ URLSearchParams_toString (currentFilters w).

Definition error_entry : Li :=
  EmptyState "color: #ff4757;"
    "Error loading messages. Please check server connection.".

Definition fetchAndRenderSentences : Async unit :=
  fun w =>
    let url := sentences_url w in
    try_catch
      (response <- fetch (GET url) ;;
       if negb (ok response) then throw "Failed to fetch messages"
       else
         data <- json response ;;
         match data with
         | Sentences sentences =>
             act (set_allSentences sentences) ;;
             act renderSentences ;;
             renderActiveFiltersText
         | _ => throw "this.allSentences.forEach is not a function"
         end)
      (fun error =>
         act (fun w' =>
           set_sentencesList [error_entry]
             (console_error "❌ Error fetching messages:" error w')))
      w.

Definition loadInitialData : Async unit :=
  loadUsersForFilter ;; fetchAndRenderSentences.

Definition handleFilterChange (key value : string) : Async unit :=
  act (fun w => set_currentFilters (obj_set key value (currentFilters w)) w) ;;
  fetchAndRenderSentences.

Definition clearAllFilters : Async unit :=
  act (fun w =>
    set_searchInput ""
      (set_sortBy (select_value "newest" (sortBy w))
         (set_userFilter (select_value "all" (userFilter w))
            (set_categoryFilter (select_value "all" (categoryFilter w))
               (set_currentFilters default_filters w))))) ;;
  fetchAndRenderSentences.

(** ** Create *)

Definition generic_add_error : string := "Failed to add message.".

(** [errorData.error || fallback]. *)
Definition error_or (fallback : string) (errorData : Body) : string :=
  match errorData with
  | ErrorObject (Some e) => if truthy e then e else fallback
  | _ => fallback
  end.

Definition login_route : string := "/auth/login".

Definition addSentence : Async unit :=
  fun w =>
    let text := trim (sentenceInput w) in
    let name := trim (nameInput w) in
    let category := value (categorySelect w) in
    if negb (truthy text) || negb (truthy name) then
      Done (alert "Your message cannot be empty." w) (Ok tt)
    else
      (act (set_addSentenceBtn (mkButton "Adding..." true)) ;;
       try_finally
         (try_catch
            (response <-
               fetch (POST "/api/sentences"
                        (mkNewSentence text name category)) ;;
             if ok response then
               act (fun w' =>
                 set_categorySelect
                   (select_value "thoughts" (categorySelect w'))
                   (set_sentenceInput "" w')) ;;
               loadInitialData
             else if Nat.eqb (status response) 401 then
               act (fun w' =>
                 set_location login_route
                   (alert
                      "You must be logged in to post a message. Redirecting to login."
                      w'))
             else
               errorData <- json response ;;
               throw (error_or generic_add_error errorData))
            (fun error =>
               act (fun w' =>
                 alert ("Error creating message: " ++ error)
                   (console_error "❌ Error adding message:" error w'))))
         (set_addSentenceBtn (mkButton "Add" false)))
        w.

(** ** Delete *)

Definition confirm_delete : string :=
  "Are you sure you want to delete this message? This action is permanent.".

(** [confirm] is a modal dialog: the page waits for it, so the answer of
    the user is an argument of the call. *)
Definition deleteSentence (id : string) (answer : bool) : Async unit :=
  fun w =>
    let w0 := set_dialogs (app (dialogs w) [Confirm confirm_delete answer]) w in
    if negb answer then Done w0 (Ok tt)
    else
      try_catch
        (response <- fetch (DELETE ("/api/sentences/" ++ id)) ;;
         if ok response then loadInitialData
         else if Nat.eqb (status response) 403 then
           act (alert
                  "You can only delete your own messages. This message belongs to another user.")
         else if Nat.eqb (status response) 401 then
           act (fun w' =>
             set_location login_route
               (alert
                  "You must be logged in to delete a message. Redirecting to login."
                  w'))
         else
           errorData <- json response ;;
           throw (error_or "Failed to delete message" errorData))
        (fun error =>
           act (fun w' =>
             alert ("Error deleting message: " ++ error)
               (console_error "❌ Error deleting message:" error w')))
        w0.

(* ================================================================== *)
(** * The page as an event loop *)
(* ================================================================== *)

(** A suspended method: what it waits for and how it goes on. *)
Inductive Task : Type :=
| WaitFetch (req : Request) (k : FetchReply -> World -> Run unit)
| WaitJson (response : Response) (k : World -> Run unit).

Record Page : Type := mkPage {
  world : World;
  pending : list Task
}.

(** A handler was called and ran up to its first [await]; a rejection
    nobody awaits is dropped. *)
Definition spawn (r : Run unit) (pool : list Task) : Page :=
  match r with
  | Done w _ => mkPage w pool
  | AwaitFetch w req k => mkPage w (app pool [WaitFetch req k])
  | AwaitJson w resp k => mkPage w (app pool [WaitJson resp k])
  end.

Fixpoint take {A} (i : nat) (l : list A) : option (A * list A) :=
  match l, i with
  | [], _ => None
  | x :: l', O => Some (x, l')
  | x :: l', S i' =>
      match take i' l' with
      | Some (y, rest) => Some (y, x :: rest)
      | None => None
      end
  end.

(** What can happen to the page. *)
Inductive Event : Type :=
| EditSentence (v : string)          (* typing in [sentenceInput] *)
| EditName (v : string)              (* the content of [nameInput] changes *)
| PickCategory (v : string)          (* choosing in [categorySelect] *)
| ClickAdd                           (* click on [addSentenceBtn] *)
| Keypress (key : string)            (* a key pressed in [sentenceInput] *)
| ChangeCategoryFilter (v : string)
| ChangeUserFilter (v : string)
| ChangeSortBy (v : string)
| ClickClear
| InputSearch (v : string)           (* [searchInput] now holds [v] *)
| ClickDelete (id : string) (answer : bool)
| Elapse (ms : nat)                  (* time passes *)
| TimerFires (id : nat)
| FetchSettles (i : nat) (reply : FetchReply)
| BodyRead (i : nat).

Definition search_delay : nat := 300.

(** The [input] listener of the search field. *)
Definition on_search_input (w : World) : World :=
  let (id, w') := setTimeout search_delay (clearTimeout (searchTimeout w) w) in
  set_searchTimeout (Some id) w'.

(** The callback of the search timer. *)
Definition on_search_timeout : Async unit :=
  fun w => handleFilterChange "search" (searchInput w) w.

Definition has_delete_btn (id : string) (li : Li) : bool :=
  match li with
  | SentenceItem item =>
      match delete_btn item with
      | Some i => String.eqb i id
      | None => false
      end
  | EmptyState _ _ => false
  end.

Definition due (id : nat) (w : World) : bool :=
  existsb (fun t => Nat.eqb (fst t) id && Nat.leb (snd t) (now w)) (timers w).

(** The listener an event of the user or of the clock runs, when the event
    can happen: a disabled button takes no click, a delete button must be
    on the page, a timer fires no earlier than it is due. *)
Definition listener (e : Event) (w : World) : option (Run unit) :=
  match e with
  | EditSentence v => Some (act (set_sentenceInput v) w)
  | EditName v => Some (act (set_nameInput v) w)
  | PickCategory v =>
      Some (act (fun w' => set_categorySelect (pick v (categorySelect w')) w') w)
  | ClickAdd =>
      if disabled (addSentenceBtn w) then None else Some (addSentence w)
  | Keypress key =>
      if String.eqb key "Enter" then Some (addSentence w)
      else Some (Done w (Ok tt))
  | ChangeCategoryFilter v =>
      let w' := set_categoryFilter (pick v (categoryFilter w)) w in
      Some (handleFilterChange "category" (value (categoryFilter w')) w')
  | ChangeUserFilter v =>
      let w' := set_userFilter (pick v (userFilter w)) w in
      Some (handleFilterChange "user" (value (userFilter w')) w')
  | ChangeSortBy v =>
      let w' := set_sortBy (pick v (sortBy w)) w in
      Some (handleFilterChange "sortBy" (value (sortBy w')) w')
  | ClickClear => Some (clearAllFilters w)
  | InputSearch v => Some (act on_search_input (set_searchInput v w))
  | ClickDelete id answer =>
      if existsb (has_delete_btn id) (sentencesList w)
      then Some (deleteSentence id answer w) else None
  | Elapse ms => Some (act (fun w' => set_now (now w' + ms) w') w)
  | TimerFires id =>
      if due id w then
        Some (on_search_timeout
                (set_timers
                   (filter (fun t => negb (Nat.eqb (fst t) id)) (timers w)) w))
      else None
  | FetchSettles _ _ => None
  | BodyRead _ => None
  end.

(** One turn of the event loop. *)
Definition react (p : Page) (e : Event) : option Page :=
  match e with
  | FetchSettles i reply =>
      match take i (pending p) with
      | Some (WaitFetch req k, rest) => Some (spawn (k reply (world p)) rest)
      | _ => None
      end
  | BodyRead i =>
      match take i (pending p) with
      | Some (WaitJson resp k, rest) => Some (spawn (k (world p)) rest)
      | _ => None
      end
  | _ =>
      match listener e (world p) with
      | Some r => Some (spawn r (pending p))
      | None => None
      end
  end.

Fixpoint run_events (p : Page) (es : list Event) : option Page :=
  match es with
  | [] => Some p
  | e :: es' =>
      match react p e with
      | Some p' => run_events p' es'
      | None => None
      end
  end.

(** [DOMContentLoaded]: the constructor, then [init], which registers the
    listeners and starts the first load. *)
Definition init : Async unit := loadInitialData.

Definition boot (d : World) : Page :=
  spawn (init (constructor (page_load d))) [].

Definition Reaches (d : World) (es : list Event) (p : Page) : Prop :=
  run_events (boot d) es = Some p.

(** ** What a history says *)

Definition is_sentence_read (req : Request) : bool :=
  match req with
  | GET url =>
      match strip_prefix "/api/sentences?" url with
      | Some _ => true
      | None => false
      end
  | _ => false
  end.

(** The array a response brings when it is a successful answer of the
    sentence list endpoint. *)
Definition fetched_by (resp : Response) : option (list Sentence) :=
  if is_sentence_read (request resp) && ok resp then
    match body resp with
    | Sentences ss => Some ss
    | _ => None
    end
  else None.

(** The array the event [e] delivers to the page [p], when that event
    completes a successful sentence fetch. *)
Definition fetched (p : Page) (e : Event) : option (list Sentence) :=
  match e with
  | BodyRead i =>
      match take i (pending p) with
      | Some (WaitJson resp _, _) => fetched_by resp
      | _ => None
      end
  | _ => None
  end.

(** The result of the last successful sentence fetch of a history that
    starts on page [p]; [acc] is the one before the history. *)
Fixpoint last_fetched (p : Page) (es : list Event)
    (acc : option (list Sentence)) : option (list Sentence) :=
  match es with
  | [] => acc
  | e :: es' =>
      match react p e with
      | Some p' =>
          last_fetched p' es'
            (match fetched p e with Some ss => Some ss | None => acc end)
      | None => acc
      end
  end.

(** The time since the last keystroke in the search field, when there was
    one. *)
Definition quiet_step (q : option nat) (e : Event) : option nat :=
  match e with
  | InputSearch _ => Some 0
  | Elapse ms => match q with Some t => Some (t + ms) | None => None end
  | _ => q
  end.

Fixpoint quiet_for (es : list Event) (acc : option nat) : option nat :=
  match es with
  | [] => acc
  | e :: es' => quiet_for es' (quiet_step acc e)
  end.

(** What an event does to the clock and the timers, on its own. *)
Definition clock_of (e : Event) (w : World) : World :=
  match e with
  | InputSearch _ => on_search_input w
  | Elapse ms => set_now (now w + ms) w
  | TimerFires id =>
      set_timers (filter (fun t => negb (Nat.eqb (fst t) id)) (timers w)) w
  | _ => w
  end.

(** ** One call, observed

    The steps of one call of a method from its start to its end: each
    [await] with what settled it and the world the method found when it
    resumed. *)
Inductive Step : Type :=
| Fetched (req : Request) (reply : FetchReply) (resumed : World)
| Parsed (response : Response) (resumed : World).

Inductive Exec {A : Type} : Run A -> list Step -> World -> Result A -> Prop :=
| Exec_done w r : Exec (Done w r) [] w r
| Exec_fetch w req k reply w' steps wf r :
    Exec (k reply w') steps wf r ->
    Exec (AwaitFetch w req k) (Fetched req reply w' :: steps) wf r
| Exec_json w resp k w' steps wf r :
    Exec (k w') steps wf r ->
    Exec (AwaitJson w resp k) (Parsed resp w' :: steps) wf r.

(** The network requests of a call. *)
Fixpoint requests (steps : list Step) : list Request :=
  match steps with
  | [] => []
  | Fetched req _ _ :: steps' => req :: requests steps'
  | Parsed _ _ :: steps' => requests steps'
  end.

(** Whether a byte occurs in a string. *)
Fixpoint has_byte (d : ascii) (s : string) : bool :=
  match s with
  | EmptyString => false
  | String c s' => Ascii.eqb c d || has_byte d s'
  end.

(** ** Closed forms used in the statements *)

(** The list a render shows for the array [ss] when the name field holds
    [currentUser]: one item per sentence, in the order of the array, or the
    single empty-state line. *)
Definition rendering (currentUser : string) (ss : list Sentence) : list Li :=
  match ss with
  | [] => [EmptyState "" "No messages found matching your criteria."]
  | _ :: _ => map (render_item currentUser) ss
  end.

(** The message the alert of a refused create carries, by the body of the
    response. *)
Definition create_failure_message (b : Body) : string :=
  match b with
  | Malformed parser_message => parser_message
  | _ => error_or generic_add_error b
  end.

Definition create_request (w : World) : Request :=
  POST "/api/sentences"
    (mkNewSentence (trim (sentenceInput w)) (trim (nameInput w))
       (value (categorySelect w))).


(** ** Invariants of the page *)

Definition filter_keys : list string :=
  ["category"; "user"; "sortBy"; "search"].

(** The filter object has its four keys and no other. *)
Definition keys_ok (w : World) : Prop :=
  obj_keys (currentFilters w) = filter_keys.

(** What the list shows, [initial] being its content in the document as
    loaded: that content, the error line of a failed read, or the
    rendering of the cached array. *)
Definition view_ok (initial : list Li) (w : World) : Prop :=
  sentencesList w = initial
  \/ sentencesList w = [error_entry]
  \/ exists currentUser,
       sentencesList w = rendering currentUser (allSentences w).

Definition Inv (initial : list Li) (w : World) : Prop :=
  keys_ok w /\ view_ok initial w.

Definition same_clock (w0 w : World) : Prop :=
  timers w = timers w0 /\ now w = now w0
  /\ next_timer w = next_timer w0 /\ searchTimeout w = searchTimeout w0.

(** What a method may have done to the world [w0] it resumed on when it
    suspends again or finishes at [w]: after a fetch settled ([keeps]),
    after a body was read ([gets]), and in the statements that follow a
    finished part ([frames]). *)
Definition keeps (initial : list Li) (w0 w : World) : Prop :=
  Inv initial w /\ same_clock w0 w /\ allSentences w = allSentences w0.

Definition frames (initial : list Li) (w0 w : World) : Prop :=
  Inv initial w /\ same_clock w0 w /\ allSentences w = allSentences w0
  /\ sentencesList w = sentencesList w0.

Definition gets (initial : list Li) (resp : Response) (w0 w : World) : Prop :=
  Inv initial w /\ same_clock w0 w
  /\ match fetched_by resp with
     | Some ss =>
         allSentences w = ss
         /\ sentencesList w = rendering (nameInput w0) ss
     | None => allSentences w = allSentences w0
     end.

(** A run all of whose continuations behave so, on every world that
    satisfies the invariant; [P] is what holds of the world at its head. *)
Inductive Obeys (initial : list Li) {A : Type}
  : (World -> Prop) -> Run A -> Prop :=
| Obeys_done (P : World -> Prop) w res :
    P w -> Obeys initial P (Done w res)
| Obeys_fetch (P : World -> Prop) w req k :
    P w ->
    (forall reply w', Inv initial w' ->
       Obeys initial (keeps initial w') (k reply w')) ->
    Obeys initial P (AwaitFetch w req k)
| Obeys_json (P : World -> Prop) w resp k :
    P w ->
    (forall w', Inv initial w' ->
       Obeys initial (gets initial resp w') (k w')) ->
    Obeys initial P (AwaitJson w resp k).

(** A property of the head that implies the invariant and survives the
    statements that follow a finished part. *)
Definition Respects (initial : list Li) (P : World -> Prop) : Prop :=
  (forall w, P w -> Inv initial w)
  /\ (forall w w2, P w -> frames initial w w2 -> P w2).

Definition task_ok (initial : list Li) (t : Task) : Prop :=
  match t with
  | WaitFetch req k =>
      forall reply w', Inv initial w' ->
        Obeys initial (keeps initial w') (k reply w')
  | WaitJson resp k =>
      forall w', Inv initial w' ->
        Obeys initial (gets initial resp w') (k w')
  end.

Definition page_ok (initial : list Li) (p : Page) : Prop :=
  Inv initial (world p) /\ Forall (task_ok initial) (pending p).

(** At most one timer is pending, the one [searchTimeout] names, and it is
    due [search_delay] after the last keystroke in the search field; [q]
    is the time since that keystroke. *)
Definition clock_ok (w : World) (q : option nat) : Prop :=
  timers w = []
  \/ exists id due_at e,
       timers w = [(id, due_at)] /\ searchTimeout w = Some id
       /\ q = Some e /\ due_at + e = now w + search_delay.

Definition cached (acc : option (list Sentence)) : list Sentence :=
  match acc with Some ss => ss | None => [] end.

(** The filter object as the controller keeps it. *)
Definition FilterState (category user sortBy search : string) : JsObject :=
  [("category", category); ("user", user); ("sortBy", sortBy);
   ("search", search)].


(** ** A page to compute with *)

Module Sample.

Definition doc : World :=
  mkWorld [] [] [] None
    "bob"
    (mkSelect [("thoughts", "Thoughts"); ("facts", "Facts")] "thoughts")
    ""
    (mkButton "Add" false)
    ""
    (mkSelect [("all", "All Categories"); ("jokes", "Jokes")] "all")
    (mkSelect [("all", "All Users")] "all")
    (mkSelect [("newest", "Newest"); ("oldest", "Oldest")] "newest")
    ""
    [EmptyState "" "Loading messages..."]
    ""
    "/dashboard"
    [] [] [] 1 0.

Definition by_bob : Sentence :=
  mkSentence "65a1" "hi <all>" "bob" "facts" "2024-01-01T10:00:00Z".

Definition by_amy : Sentence :=
  mkSentence "65a2" "knock knock" "amy" "jokes" "2024-01-02T11:30:00Z".

(** The page after its constructor, with a message typed in the form. *)
Definition ready : World :=
  set_sentenceInput " hi " (constructor (page_load doc)).

(** The same with nothing but white space typed. *)
Definition blank : World :=
  set_sentenceInput (" " ++ byte 9 ++ byte 194 ++ byte 160) ready.

(** The same with [by_bob] and [by_amy] fetched and rendered. *)
Definition listed : World :=
  renderSentences (set_allSentences [by_bob; by_amy] ready).

(** The first load succeeds; then the category filter changes and the
    fetch it starts gets no answer. *)
Definition failed_refresh : list Event :=
  [ FetchSettles 0 (Arrived 200 (UserNames ["bob"; "amy"]));
    BodyRead 0;
    FetchSettles 0 (Arrived 200 (Sentences [by_bob; by_amy]));
    BodyRead 0;
    ChangeCategoryFilter "jokes";
    FetchSettles 0 (NetworkError "Failed to fetch") ].

(** Two keystrokes 100 ms apart, then 300 ms without one. *)
Definition typing : list Event :=
  [ InputSearch "k"; Elapse 100; InputSearch "kn"; Elapse 300 ].

End Sample.

(* ================================================================== *)
(** * Further notions for the statements *)
(* ================================================================== *)

(** A call left alone: it is resumed on the world it left, and its
    fetches settle with the given replies, in order. The result is the
    requests it issued, the world it ends on and how it ended; there is
    none when the replies are too few or too many. *)
Fixpoint run_alone {A : Type} (r : Run A) (replies : list FetchReply)
  : option (list Request * World * Result A) :=
  match r with
  | Done w res =>
      match replies with
      | [] => Some ([], w, res)
      | _ :: _ => None
      end
  | AwaitFetch w req k =>
      match replies with
      | [] => None
      | reply :: rest =>
          match run_alone (k reply w) rest with
          | Some (reqs, wf, res) => Some (req :: reqs, wf, res)
          | None => None
          end
      end
  | AwaitJson w resp k => run_alone (k w) replies
  end.

(** The options [loadUsersForFilter] gives the user filter for a list of
    user names. *)
Definition user_options (users : list string) : list (string * string) :=
  app all_users_option (map (fun u => (u, u)) users).

(** What the page shows beside the list, [d] being the document as
    loaded: the location is the one of the page or the login route; the
    count is the one of the document or the length of the cached array;
    the options of the user filter are those of the document or the
    cached user names after [All Users]. *)
Definition location_ok (d w : World) : Prop :=
  location w = location d \/ location w = login_route.

Definition count_ok (d w : World) : Prop :=
  sentencesCount w = sentencesCount d
  \/ sentencesCount w
     = string_of_nat (List.length (allSentences w)) ++ " Messages".

Definition users_ok (d w : World) : Prop :=
  options (userFilter w) = options (userFilter d)
  \/ options (userFilter w) = user_options (allUsers w).

Definition Displays (d w : World) : Prop :=
  location_ok d w /\ count_ok d w /\ users_ok d w.

(** A run that establishes [I] whenever it suspends or finishes, as long
    as it is resumed on worlds that satisfy [I]. *)
Inductive Preserves (I : World -> Prop) {A : Type} : Run A -> Prop :=
| Preserves_done w res : I w -> Preserves I (Done w res)
| Preserves_fetch w req k :
    I w ->
    (forall reply w', I w' -> Preserves I (k reply w')) ->
    Preserves I (AwaitFetch w req k)
| Preserves_json w resp k :
    I w ->
    (forall w', I w' -> Preserves I (k w')) ->
    Preserves I (AwaitJson w resp k).

Definition task_preserves (I : World -> Prop) (t : Task) : Prop :=
  match t with
  | WaitFetch req k => forall reply w', I w' -> Preserves I (k reply w')
  | WaitJson resp k => forall w', I w' -> Preserves I (k w')
  end.

Definition page_preserves (I : World -> Prop) (p : Page) : Prop :=
  I (world p) /\ Forall (task_preserves I) (pending p).


(** A string of nothing but the white space of ASCII: TAB, LF, VT, FF, CR
    and the space. *)
Definition is_ascii_space (c : ascii) : bool :=
  let n := nat_of_ascii c in
  (((9 <=? n) && (n <=? 13)) || (n =? 32))%nat.

Fixpoint all_ascii_space (s : string) : bool :=
  match s with
  | EmptyString => true
  | String c s' => is_ascii_space c && all_ascii_space s'
  end.

(** ** Replies within the contract of the endpoints

    A 2xx answer to the user list request carries an array of user names,
    and one to a sentence read an array of sentences, unless the body is
    not JSON at all. *)
Definition in_contract (req : Request) (reply : FetchReply) : bool :=
  match reply, req with
  | Arrived st b, GET url =>
      if ((200 <=? st) && (st <=? 299))%nat then
        if String.eqb url "/api/sentences/users" then
          match b with UserNames _ | Malformed _ => true | _ => false end
        else if is_sentence_read req then
          match b with Sentences _ | Malformed _ => true | _ => false end
        else true
      else true
  | _, _ => true
  end.

Definition event_in_contract (p : Page) (e : Event) : bool :=
  match e with
  | FetchSettles i reply =>
      match take i (pending p) with
      | Some (WaitFetch req _, _) => in_contract req reply
      | _ => true
      end
  | _ => true
  end.

(** Every reply of the history is within the contract. *)
Fixpoint contract_kept (p : Page) (es : list Event) : bool :=
  match es with
  | [] => true
  | e :: es' =>
      event_in_contract p e
      && match react p e with
         | Some p' => contract_kept p' es'
         | None => true
         end
  end.

(* ================================================================== *)
(** * Facts about strings and the query format *)
(* ================================================================== *)

Section QueryStrings.

Lemma append_assoc (a b c : string) : (a ++ b) ++ c = a ++ (b ++ c).
Proof. induction a as [|x a IH]; simpl; [reflexivity | now rewrite IH]. Qed.

Lemma has_byte_append (d : ascii) (a b : string) :
  has_byte d (a ++ b) = has_byte d a || has_byte d b.
Proof.
  induction a as [|x a IH]; simpl; [reflexivity|].
  rewrite IH. now rewrite orb_assoc.
Qed.

(** Each byte decodes to itself, whatever follows it. *)
Lemma urldecode_byte (c : ascii) (rest : string) :
  urldecode (urlencode_byte c ++ rest) = String c (urldecode rest).
Proof.
  destruct c as [[] [] [] [] [] [] [] []]; reflexivity.
Qed.

Lemma urldecode_urlencode (s : string) : urldecode (urlencode s) = s.
Proof.
  induction s as [|c s IH]; [reflexivity|].
  cbn [urlencode]. rewrite urldecode_byte. now rewrite IH.
Qed.

Lemma urlencode_byte_no_amp (c : ascii) :
  has_byte "&" (urlencode_byte c) = false.
Proof. destruct c as [[] [] [] [] [] [] [] []]; reflexivity. Qed.

Lemma urlencode_byte_no_eq (c : ascii) :
  has_byte "=" (urlencode_byte c) = false.
Proof. destruct c as [[] [] [] [] [] [] [] []]; reflexivity. Qed.

Lemma urlencode_no_amp (s : string) : has_byte "&" (urlencode s) = false.
Proof.
  induction s as [|c s IH]; [reflexivity|].
  cbn [urlencode]. rewrite has_byte_append, urlencode_byte_no_amp, IH.
  reflexivity.
Qed.

Lemma urlencode_no_eq (s : string) : has_byte "=" (urlencode s) = false.
Proof.
  induction s as [|c s IH]; [reflexivity|].
  cbn [urlencode]. rewrite has_byte_append, urlencode_byte_no_eq, IH.
  reflexivity.
Qed.

Lemma split_on_free (d : ascii) (a : string) :
  has_byte d a = false -> split_on d a = [a].
Proof.
  induction a as [|c a IH]; simpl; [reflexivity|].
  intros H. apply orb_false_iff in H as [Hc Ha].
  rewrite Hc, (IH Ha). reflexivity.
Qed.

Lemma split_on_at (d : ascii) (a b : string) :
  has_byte d a = false ->
  split_on d (a ++ String d b) = a :: split_on d b.
Proof.
  induction a as [|c a IH]; simpl.
  - intros _. now rewrite Ascii.eqb_refl.
  - intros H. apply orb_false_iff in H as [Hc Ha].
    rewrite Hc, (IH Ha). reflexivity.
Qed.

Lemma split_first_at (d : ascii) (a b : string) :
  has_byte d a = false -> split_first d (a ++ String d b) = (a, b).
Proof.
  induction a as [|c a IH]; simpl.
  - intros _. now rewrite Ascii.eqb_refl.
  - intros H. apply orb_false_iff in H as [Hc Ha].
    rewrite Hc, (IH Ha). reflexivity.
Qed.

Lemma urlencode_pair_no_amp (kv : string * string) :
  has_byte "&" (urlencode_pair kv) = false.
Proof.
  unfold urlencode_pair. rewrite !has_byte_append, !urlencode_no_amp.
  reflexivity.
Qed.

Lemma urlencode_pair_truthy (kv : string * string) :
  truthy (urlencode_pair kv) = true.
Proof.
  unfold urlencode_pair. destruct (urlencode (fst kv)); reflexivity.
Qed.

Lemma parse_urlencode_pair (kv : string * string) :
  parse_pair (urlencode_pair kv) = kv.
Proof.
  destruct kv as [k v]. unfold parse_pair, urlencode_pair; simpl fst; simpl snd.
  change (urlencode k ++ "=" ++ urlencode v)
    with (urlencode k ++ String "=" (urlencode v)).
  rewrite (split_first_at "=" _ _ (urlencode_no_eq k)).
  now rewrite !urldecode_urlencode.
Qed.

(** Reading back what [URLSearchParams] wrote gives the object: its keys
    in order, each with its value. *)
Lemma parse_query_toString (o : JsObject) :
  parse_query (URLSearchParams_toString o) = o.
Proof.
  unfold URLSearchParams_toString, parse_query.
  induction o as [|kv o IH]; [reflexivity|].
  destruct o as [|kv' o].
  - simpl map at 2. cbn [join].
    rewrite (split_on_free _ _ (urlencode_pair_no_amp kv)).
    cbn [filter]. rewrite urlencode_pair_truthy. cbn [map].
    now rewrite parse_urlencode_pair.
  - change (join "&" (map urlencode_pair (kv :: kv' :: o)))
      with (urlencode_pair kv
            ++ String "&" (join "&" (map urlencode_pair (kv' :: o)))).
    rewrite (split_on_at _ _ _ (urlencode_pair_no_amp kv)).
    cbn [filter]. rewrite urlencode_pair_truthy.
    cbn [map] in *. rewrite parse_urlencode_pair. now rewrite IH.
Qed.

Lemma query_of_sentences_url (q : string) :
  query_of_url ("/api/sentences?" ++ q) = q.
Proof. reflexivity. Qed.

End QueryStrings.

(* ================================================================== *)
(** * One call of a method *)
(* ================================================================== *)

Section Calls.

Local Arguments ok : simpl never.
Local Arguments renderSentences : simpl never.
Local Arguments renderActiveFiltersText : simpl never.
Local Arguments sentences_url : simpl never.
Local Arguments trim : simpl never.


(** Use the induction hypothesis on the run that follows an [await]. *)
Ltac apply_IH IH :=
  match goal with
  | Hk : Exec _ _ _ _ |- _ => specialize (IH _ _ _ Hk) || specialize (IH _ _ Hk)
  end.

(** The [finally] block is the last thing a call does. *)
Lemma Exec_finally {A} (r : Run A) cleanup steps wf res :
  Exec (finally_run r cleanup) steps wf res ->
  exists w, Exec r steps w res /\ wf = cleanup w.
Proof.
  revert steps.
  induction r as [w r|w req k IH|w resp k IH]; simpl; intros steps H;
    inversion H; subst; clear H.
  - eexists; split; [constructor | reflexivity].
  - apply_IH IH; destruct IH as [w1 [H1 ->]].
    eexists; split; [constructor; eassumption | reflexivity].
  - apply_IH IH; destruct IH as [w1 [H1 ->]].
    eexists; split; [constructor; eassumption | reflexivity].
Qed.

(** A [try] block either ends well, or throws and the handler runs on the
    world the block left. *)
Lemma Exec_catch {A} (r : Run A) handler steps wf res :
  Exec (catch_run r handler) steps wf res ->
  (exists a, res = Ok a /\ Exec r steps wf (Ok a))
  \/ (exists e s1 s2 w,
        steps = app s1 s2 /\ Exec r s1 w (Thrown e)
        /\ Exec (handler e w) s2 wf res).
Proof.
  revert steps.
  induction r as [w [a|e]|w req k IH|w resp k IH]; simpl; intros steps H.
  - inversion H; subst. left; eexists; split; [reflexivity | constructor].
  - right. exists e, [], steps, w. repeat split; [constructor | assumption].
  - inversion H; subst; clear H. apply_IH IH.
    destruct IH as [[a [-> H1]]|[e [s1 [s2 [w1 [-> [H1 H2]]]]]]].
    + left; eexists; split; [reflexivity | constructor; eassumption].
    + right. exists e, (Fetched req reply w' :: s1), s2, w1.
      repeat split; [constructor; assumption | assumption].
  - inversion H; subst; clear H. apply_IH IH.
    destruct IH as [[a [-> H1]]|[e [s1 [s2 [w1 [-> [H1 H2]]]]]]].
    + left; eexists; split; [reflexivity | constructor; eassumption].
    + right. exists e, (Parsed resp w' :: s1), s2, w1.
      repeat split; [constructor; assumption | assumption].
Qed.


(** Every run comes to an end: runs are finite trees, and answering each
    fetch with [reply] leads to the end of one. *)
Lemma Exec_total {A} (r : Run A) (reply : FetchReply) :
  exists steps wf res, Exec r steps wf res.
Proof.
  induction r as [w r|w req k IH|w resp k IH].
  - do 3 eexists; constructor.
  - destruct (IH reply w) as [s [wf [res H]]].
    do 3 eexists; econstructor; eassumption.
  - destruct (IH w) as [s [wf [res H]]].
    do 3 eexists; econstructor; eassumption.
Qed.






End Calls.

(* ================================================================== *)
(** * Properties of one call *)
(* ================================================================== *)

Section CallProperties.

Local Arguments ok : simpl never.
Local Arguments renderSentences : simpl never.
Local Arguments renderActiveFiltersText : simpl never.
Local Arguments loadInitialData : simpl never.
Local Arguments sentences_url : simpl never.
Local Arguments trim : simpl never.

Lemma truthy_nonempty (s : string) : truthy s = true <-> s <> "".
Proof. destruct s; simpl; split; congruence. Qed.

Lemma ok_range req st b :
  ok (mkResponse req st b) = true <-> 200 <= st <= 299.
Proof.
  unfold ok; cbn [status].
  rewrite andb_true_iff, !Nat.leb_le. reflexivity.
Qed.

Lemma validation_passes (w : World) :
  trim (sentenceInput w) <> "" -> trim (nameInput w) <> "" ->
  negb (truthy (trim (sentenceInput w)))
  || negb (truthy (trim (nameInput w))) = false.
Proof.
  intros Ht Hn. apply truthy_nonempty in Ht, Hn. now rewrite Ht, Hn.
Qed.

(** What [addSentence] is once the two fields are not empty. *)
Lemma addSentence_valid (w : World) :
  trim (sentenceInput w) <> "" -> trim (nameInput w) <> "" ->
  exists body,
    addSentence w
    = finally_run
        (AwaitFetch (set_addSentenceBtn (mkButton "Adding..." true) w)
           (create_request w) body)
        (set_addSentenceBtn (mkButton "Add" false))
    /\ (forall st b w1, body (Arrived st b) w1 =
         if ok (mkResponse (create_request w) st b) then
           catch_run
             (loadInitialData
                (set_categorySelect
                   (select_value "thoughts" (categorySelect w1))
                   (set_sentenceInput "" w1)))
             (fun error =>
                act (fun w' =>
                  alert ("Error creating message: " ++ error)
                    (console_error "❌ Error adding message:" error w')))
         else if Nat.eqb st 401 then
           Done (set_location login_route
                   (alert
                      "You must be logged in to post a message. Redirecting to login."
                      w1)) (Ok tt)
         else
           AwaitJson w1 (mkResponse (create_request w) st b) (fun w2 =>
             Done (alert ("Error creating message: "
                          ++ create_failure_message b)
                     (console_error "❌ Error adding message:"
                        (create_failure_message b) w2)) (Ok tt)))
    /\ forall e w1, body (NetworkError e) w1 =
         Done (alert ("Error creating message: " ++ e)
                 (console_error "❌ Error adding message:" e w1)) (Ok tt).
Proof.
  intros Ht Hn. unfold addSentence.
  rewrite (validation_passes w Ht Hn).
  eexists; split; [reflexivity|].
  split; [|reflexivity].
  intros st b w1. cbn.
  destruct (ok _); [reflexivity|].
  destruct (Nat.eqb st 401); [reflexivity|].
  destruct b as [m|us|ss|[e|]]; reflexivity.
Qed.

(** What [deleteSentence] is once the user has confirmed. *)
Lemma deleteSentence_confirmed (id : string) (w : World) :
  exists body,
    deleteSentence id true w
    = AwaitFetch
        (set_dialogs (app (dialogs w) [Confirm confirm_delete true]) w)
        (DELETE ("/api/sentences/" ++ id)) body
    /\ (forall st b w1, body (Arrived st b) w1 =
         if ok (mkResponse (DELETE ("/api/sentences/" ++ id)) st b) then
           catch_run (loadInitialData w1)
             (fun error =>
                act (fun w' =>
                  alert ("Error deleting message: " ++ error)
                    (console_error "❌ Error deleting message:" error w')))
         else if Nat.eqb st 403 then
           Done (alert
                   "You can only delete your own messages. This message belongs to another user."
                   w1) (Ok tt)
         else if Nat.eqb st 401 then
           Done (set_location login_route
                   (alert
                      "You must be logged in to delete a message. Redirecting to login."
                      w1)) (Ok tt)
         else
           AwaitJson w1 (mkResponse (DELETE ("/api/sentences/" ++ id)) st b)
             (fun w2 =>
                let message :=
                  match b with
                  | Malformed m => m
                  | _ => error_or "Failed to delete message" b
                  end in
                Done (alert ("Error deleting message: " ++ message)
                        (console_error "❌ Error deleting message:"
                           message w2)) (Ok tt)))
    /\ forall e w1, body (NetworkError e) w1 =
         Done (alert ("Error deleting message: " ++ e)
                 (console_error "❌ Error deleting message:" e w1)) (Ok tt).
Proof.
  unfold deleteSentence. eexists; split; [reflexivity|].
  split; [|reflexivity].
  intros st b w1. cbn.
  destruct (ok _); [reflexivity|].
  destruct (Nat.eqb st 403); [reflexivity|].
  destruct (Nat.eqb st 401); [reflexivity|].
  destruct b as [m|us|ss|[e|]]; reflexivity.
Qed.



Lemma Exec_fetch_inv {A} w req (k : FetchReply -> World -> Run A)
    step steps wf res :
  Exec (AwaitFetch w req k) (step :: steps) wf res ->
  exists reply w1, step = Fetched req reply w1
                   /\ Exec (k reply w1) steps wf res.
Proof. intros H; inversion H; subst; eauto. Qed.

End CallProperties.

Section CallClaims.

Local Arguments ok : simpl never.
Local Arguments renderSentences : simpl never.
Local Arguments renderActiveFiltersText : simpl never.
Local Arguments loadInitialData : simpl never.
Local Arguments sentences_url : simpl never.
Local Arguments trim : simpl never.

(** C2. [addSentence] with a message or a name that is empty once
    trimmed shows the alert and finishes at once: the call has no
    [await], so it issues no request, and the world it leaves is the one
    it found with the alert added to the dialogs shown. With both fields
    filled it disables the button and suspends on the create request,
    which carries the trimmed text, the trimmed name and the category. *)
Theorem addSentence_rejects_empty_fields (w : World) :
  (trim (sentenceInput w) = "" \/ trim (nameInput w) = "" ->
     addSentence w = Done (alert "Your message cannot be empty." w) (Ok tt)
     /\ forall steps wf res,
          Exec (addSentence w) steps wf res ->
          requests steps = []
          /\ wf = set_dialogs
                    (app (dialogs w) [Alert "Your message cannot be empty."])
                    w)
  /\ (trim (sentenceInput w) <> "" /\ trim (nameInput w) <> "" ->
        exists k,
          addSentence w
          = AwaitFetch (set_addSentenceBtn (mkButton "Adding..." true) w)
              (POST "/api/sentences"
                 (mkNewSentence (trim (sentenceInput w))
                    (trim (nameInput w)) (value (categorySelect w))))
              k).
Proof.
  split.
  - intros Hempty.
    assert (Hc : negb (truthy (trim (sentenceInput w)))
                 || negb (truthy (trim (nameInput w))) = true).
    { destruct Hempty as [-> | ->]; [reflexivity|].
      apply orb_true_r. }
    assert (Heq : addSentence w
                  = Done (alert "Your message cannot be empty." w) (Ok tt)).
    { unfold addSentence. now rewrite Hc. }
    split; [exact Heq|].
    intros steps wf res H. rewrite Heq in H.
    inversion H; subst. split; reflexivity.
  - intros [Ht Hn].
    destruct (addSentence_valid w Ht Hn) as [body [Heq _]].
    rewrite Heq. cbn. eexists; reflexivity.
Qed.

Lemma addSentence_rejects_empty_fields_witness :
  addSentence Sample.blank
  = Done (alert "Your message cannot be empty." Sample.blank) (Ok tt)
  /\ exists k,
       addSentence Sample.ready
       = AwaitFetch
           (set_addSentenceBtn (mkButton "Adding..." true) Sample.ready)
           (POST "/api/sentences" (mkNewSentence "hi" "bob" "thoughts")) k.
Proof.
  split.
  - apply (proj1 (addSentence_rejects_empty_fields Sample.blank)).
    left; reflexivity.
  - apply (proj2 (addSentence_rejects_empty_fields Sample.ready)).
    split; discriminate.
Defined.

Lemma fold_appendChild (item : Sentence -> Li) (ss : list Sentence)
    (w : World) :
  fold_left (fun w' s => appendChild (item s) w') ss w
  = set_sentencesList (app (sentencesList w) (map item ss)) w.
Proof.
  revert w. induction ss as [|s ss IH]; intros w; simpl.
  - rewrite app_nil_r. destruct w; reflexivity.
  - rewrite IH. unfold appendChild. cbn.
    rewrite <- app_assoc. reflexivity.
Qed.

(** A render replaces the list and the count and nothing else. *)
Lemma renderSentences_eq (w : World) :
  renderSentences w
  = set_sentencesList (rendering (nameInput w) (allSentences w))
      (set_sentencesCount
         (string_of_nat (List.length (allSentences w)) ++ " Messages") w).
Proof.
  unfold renderSentences, rendering.
  destruct (allSentences w) as [|s ss] eqn:E.
  - reflexivity.
  - cbn [List.length Nat.eqb]. rewrite fold_appendChild. reflexivity.
Qed.





(** C7. However a call of [addSentence] that passed the validation ends
    (the create succeeded and the lists were reloaded, it was answered
    401 or another status, or the fetch was rejected), and whatever other
    handlers did meanwhile, the world it leaves has the button enabled
    with its label [Add]. *)
Theorem addSentence_restores_button (w : World) steps wf res :
  trim (sentenceInput w) <> "" -> trim (nameInput w) <> "" ->
  Exec (addSentence w) steps wf res ->
  addSentenceBtn wf = mkButton "Add" false /\ res = Ok tt.
Proof.
  intros Ht Hn H.
  destruct (addSentence_valid w Ht Hn) as [body [Heq [Hbody _]]].
  assert (Hres : res = Ok tt).
  { clear Heq Hbody. revert H. unfold addSentence.
    rewrite (validation_passes w Ht Hn).
    unfold bind, act, try_finally, try_catch. cbn [bind_run].
    intros H. apply Exec_finally in H as [w2 [H _]].
    apply Exec_catch in H
      as [[[] [-> H]]|[e [s1 [s2 [w3 [-> [H1 H2]]]]]]]; [reflexivity|].
    cbn in H2. inversion H2; subst. reflexivity. }
  rewrite Heq in H. apply Exec_finally in H as [w2 [_ ->]].
  split; [reflexivity | exact Hres].
Qed.

(** Build the run of a closed call along given steps. *)
Ltac run_call :=
  repeat first [apply Exec_done | eapply Exec_fetch | eapply Exec_json].



Lemma addSentence_restores_button_witness :
  exists wf,
    Exec (addSentence Sample.ready)
      [Fetched (create_request Sample.ready)
         (NetworkError "Failed to fetch") Sample.ready]
      wf (Ok tt)
    /\ addSentenceBtn wf = mkButton "Add" false.
Proof.
  assert (H : exists wf,
             Exec (addSentence Sample.ready)
               [Fetched (create_request Sample.ready)
                  (NetworkError "Failed to fetch") Sample.ready]
               wf (Ok tt)).
  { eexists. run_call. }
  destruct H as [wf H]. exists wf. split; [exact H|].
  apply (addSentence_restores_button Sample.ready _ _ _
           ltac:(discriminate) ltac:(discriminate) H).
Defined.




(** C10. [deleteSentence] with the confirmation declined finishes at
    once, for every id: the call has no [await], so it issues no request,
    and it leaves the world it found, the filters, the cached sentences
    and users and everything rendered included; only the dialog that was
    shown is recorded. *)
Theorem declined_delete_changes_nothing (id : string) (w : World) :
  deleteSentence id false w
  = Done (set_dialogs (app (dialogs w) [Confirm confirm_delete false]) w)
      (Ok tt)
  /\ forall steps wf res,
       Exec (deleteSentence id false w) steps wf res ->
       steps = []
       /\ currentFilters wf = currentFilters w
       /\ allSentences wf = allSentences w
       /\ allUsers wf = allUsers w
       /\ sentencesList wf = sentencesList w
       /\ sentencesCount wf = sentencesCount w
       /\ activeFilters wf = activeFilters w
       /\ userFilter wf = userFilter w
       /\ location wf = location w.
Proof.
  split; [reflexivity|].
  intros steps wf res H. cbn in H. inversion H; subst.
  repeat split; reflexivity.
Qed.

Lemma declined_delete_changes_nothing_witness :
  exists wf,
    Exec (deleteSentence "65a1" false Sample.listed) [] wf (Ok tt)
    /\ sentencesList wf = sentencesList Sample.listed.
Proof.
  assert (H : exists wf,
             Exec (deleteSentence "65a1" false Sample.listed) [] wf (Ok tt)).
  { eexists. run_call. }
  destruct H as [wf H]. exists wf. split; [exact H|].
  apply (proj2 (declined_delete_changes_nothing "65a1" Sample.listed)
           _ _ _ H).
Defined.

End CallClaims.

(* ================================================================== *)
(** * Invariants of the event loop *)
(* ================================================================== *)

Section PageInvariant.

Variable initial : list Li.

Local Arguments ok : simpl never.
Local Arguments renderSentences : simpl never.
Local Arguments renderActiveFiltersText : simpl never.
Local Arguments loadInitialData : simpl never.
Local Arguments loadUsersForFilter : simpl never.
Local Arguments fetchAndRenderSentences : simpl never.
Local Arguments sentences_url : simpl never.
Local Arguments trim : simpl never.
Local Arguments rendering : simpl never.
Local Arguments fetched_by : simpl never.

Lemma keeps_refl w : Inv initial w -> keeps initial w w.
Proof. unfold keeps, same_clock; intuition. Qed.

Lemma frames_refl w : Inv initial w -> frames initial w w.
Proof. unfold frames, same_clock; intuition. Qed.

Lemma frames_keeps w0 w : frames initial w0 w -> keeps initial w0 w.
Proof. unfold frames, keeps; intuition. Qed.

Lemma same_clock_trans w0 w w2 :
  same_clock w0 w -> same_clock w w2 -> same_clock w0 w2.
Proof.
  unfold same_clock. intros [A1 [A2 [A3 A4]]] [B1 [B2 [B3 B4]]].
  repeat split; congruence.
Qed.

Lemma respects_frames w0 : Respects initial (frames initial w0).
Proof.
  split; [unfold frames; intuition|].
  intros w w2 [_ [C1 [S1 L1]]] [I2 [C2 [S2 L2]]].
  repeat split; try apply I2;
    try (destruct (same_clock_trans _ _ _ C1 C2) as [? [? [? ?]]];
         assumption); congruence.
Qed.

Lemma respects_keeps w0 : Respects initial (keeps initial w0).
Proof.
  split; [unfold keeps; intuition|].
  intros w w2 [_ [C1 S1]] [I2 [C2 [S2 L2]]].
  split; [exact I2|]. split; [eapply same_clock_trans; eassumption|].
  congruence.
Qed.

Lemma respects_gets resp w0 : Respects initial (gets initial resp w0).
Proof.
  split; [unfold gets; intuition|].
  intros w w2 [_ [C1 S1]] [I2 [C2 [S2 L2]]].
  split; [exact I2|]. split; [eapply same_clock_trans; eassumption|].
  destruct (fetched_by resp); [|congruence].
  destruct S1; split; congruence.
Qed.

Lemma obeys_weaken {A} (P Q : World -> Prop) (r : Run A) :
  Obeys initial P r -> (forall w, P w -> Q w) -> Obeys initial Q r.
Proof.
  intros H HPQ. inversion H; subst; constructor; auto.
Qed.

Lemma obeys_bind {A B} (P : World -> Prop) (r : Run A) (f : A -> Async B) :
  Obeys initial P r -> Respects initial P ->
  (forall a w, Inv initial w -> Obeys initial (frames initial w) (f a w)) ->
  Obeys initial P (bind_run r f).
Proof.
  intros H. induction H as [P w res HP|P w req k HP Hk IH|P w resp k HP Hk IH];
    intros HR Hf; simpl.
  - destruct res as [a|e]; [|constructor; assumption].
    apply obeys_weaken with (P := frames initial w).
    + apply Hf. now apply HR.
    + intros w2. now apply HR.
  - constructor; [assumption|]. intros reply w' Hw'.
    apply IH; [assumption | apply respects_keeps | assumption].
  - constructor; [assumption|]. intros w' Hw'.
    apply IH; [assumption | apply respects_gets | assumption].
Qed.

Lemma obeys_catch {A} (P : World -> Prop) (r : Run A) handler :
  Obeys initial P r -> Respects initial P ->
  (forall e w, Inv initial w ->
     Obeys initial (frames initial w) (handler e w)) ->
  Obeys initial P (catch_run r handler).
Proof.
  intros H. induction H as [P w res HP|P w req k HP Hk IH|P w resp k HP Hk IH];
    intros HR Hh; simpl.
  - destruct res as [a|e]; [constructor; assumption|].
    apply obeys_weaken with (P := frames initial w).
    + apply Hh. now apply HR.
    + intros w2. now apply HR.
  - constructor; [assumption|]. intros reply w' Hw'.
    apply IH; [assumption | apply respects_keeps | assumption].
  - constructor; [assumption|]. intros w' Hw'.
    apply IH; [assumption | apply respects_gets | assumption].
Qed.

Lemma obeys_finally {A} (P : World -> Prop) (r : Run A) cleanup :
  Obeys initial P r -> Respects initial P ->
  (forall w, Inv initial w -> frames initial w (cleanup w)) ->
  Obeys initial P (finally_run r cleanup).
Proof.
  intros H. induction H as [P w res HP|P w req k HP Hk IH|P w resp k HP Hk IH];
    intros HR Hc; simpl.
  - constructor. destruct HR as [HI HF].
    eapply HF; [eassumption|]. apply Hc. now apply HI.
  - constructor; [assumption|]. intros reply w' Hw'.
    apply IH; [assumption | apply respects_keeps | assumption].
  - constructor; [assumption|]. intros w' Hw'.
    apply IH; [assumption | apply respects_gets | assumption].
Qed.

End PageInvariant.

Section PageMethods.

Variable initial : list Li.

Local Arguments ok : simpl never.
Local Arguments renderSentences : simpl never.
Local Arguments renderActiveFiltersText : simpl never.
Local Arguments loadInitialData : simpl never.
Local Arguments sentences_url : simpl never.
Local Arguments trim : simpl never.
Local Arguments rendering : simpl never.
Local Arguments fetched_by : simpl never.
Local Arguments select_value : simpl never.

Lemma keys_shape w :
  keys_ok w ->
  exists c u s q,
    currentFilters w
    = [("category", c); ("user", u); ("sortBy", s); ("search", q)].
Proof.
  unfold keys_ok, obj_keys, filter_keys.
  destruct (currentFilters w)
    as [|[k1 v1] [|[k2 v2] [|[k3 v3] [|[k4 v4] [|]]]]];
    simpl; intros H; try discriminate.
  injection H as -> -> -> ->. eauto.
Qed.

Lemma renderActiveFiltersText_ok w :
  keys_ok w ->
  exists t, renderActiveFiltersText w = Done (set_activeFilters t w) (Ok tt).
Proof.
  intros H. destruct (keys_shape w H) as [c [u [s [q E]]]].
  unfold renderActiveFiltersText. rewrite E.
  change (obj_get "sortBy" _) with (Some s). cbv iota beta.
  destruct (filter_parts _); eexists; reflexivity.
Qed.

(** Solve a goal about a world built by assignments to fields. *)
Ltac frame :=
  unfold keeps, frames, gets, Inv, keys_ok, view_ok, same_clock in *;
  cbn; intuition eauto.

Lemma fetched_by_other req st b :
  is_sentence_read req = false -> fetched_by (mkResponse req st b) = None.
Proof. unfold fetched_by; cbn. now intros ->. Qed.

Lemma fetched_by_not_array req st b :
  (forall ss, b <> Sentences ss) -> fetched_by (mkResponse req st b) = None.
Proof.
  unfold fetched_by; cbn. intros H.
  destruct (_ && _); [|reflexivity].
  destruct b; try reflexivity. now destruct (H sentences).
Qed.

Lemma fetched_by_array w st ss :
  ok (mkResponse (GET (sentences_url w)) st (Sentences ss)) = true ->
  fetched_by (mkResponse (GET (sentences_url w)) st (Sentences ss)) = Some ss.
Proof. unfold fetched_by. intros ->. reflexivity. Qed.

Lemma fetchAndRenderSentences_obeys w :
  Inv initial w ->
  Obeys initial (frames initial w) (fetchAndRenderSentences w).
Proof.
  intros Hw. unfold fetchAndRenderSentences, try_catch, bind, fetch, json,
    throw, act. cbn.
  constructor; [now apply frames_refl|].
  intros reply w1 H1. destruct reply as [e|st b]; cbn.
  { constructor. frame. }
  destruct (ok _) eqn:Hok; cbn; [|constructor; frame].
  constructor; [now apply keeps_refl|].
  intros w2 H2.
  destruct b as [m|us|ss|e]; cbn.
  - constructor. unfold gets. rewrite fetched_by_not_array by discriminate.
    frame.
  - constructor. unfold gets. rewrite fetched_by_not_array by discriminate.
    frame.
  - destruct (renderActiveFiltersText_ok
                (renderSentences (set_allSentences ss w2))) as [t ->].
    { rewrite renderSentences_eq. destruct H2 as [K _]. exact K. }
    cbn. constructor. unfold gets.
    rewrite (fetched_by_array _ _ _ Hok).
    rewrite renderSentences_eq. frame.
  - constructor. unfold gets. rewrite fetched_by_not_array by discriminate.
    frame.
Qed.

Lemma loadUsersForFilter_obeys w :
  Inv initial w ->
  Obeys initial (frames initial w) (loadUsersForFilter w).
Proof.
  intros Hw. unfold loadUsersForFilter, try_catch, bind, fetch, json,
    throw, act. cbn.
  constructor; [now apply frames_refl|].
  intros reply w1 H1. destruct reply as [e|st b]; cbn.
  { constructor. frame. }
  destruct (ok _) eqn:Hok; cbn; [|constructor; frame].
  constructor; [now apply keeps_refl|].
  intros w2 H2. unfold gets.
  rewrite fetched_by_other by reflexivity.
  destruct b as [m|us|ss|e]; cbn; constructor; frame.
Qed.

Lemma loadInitialData_obeys w :
  Inv initial w ->
  Obeys initial (frames initial w) (loadInitialData w).
Proof.
  intros Hw. unfold loadInitialData, bind.
  apply obeys_bind.
  - now apply loadUsersForFilter_obeys.
  - apply respects_frames.
  - intros _ w1 H1. now apply fetchAndRenderSentences_obeys.
Qed.

Lemma addSentence_obeys w :
  Inv initial w -> Obeys initial (frames initial w) (addSentence w).
Proof.
  intros Hw.
  destruct (trim (sentenceInput w)) as [|c1 t1] eqn:Et.
  { unfold addSentence. rewrite Et. cbn. constructor. frame. }
  destruct (trim (nameInput w)) as [|c2 t2] eqn:En.
  { unfold addSentence. rewrite Et, En. cbn. constructor. frame. }
  destruct (addSentence_valid w) as [body [Heq [Hbody Herr]]];
    [rewrite Et; discriminate | rewrite En; discriminate |].
  rewrite Heq. apply obeys_finally;
    [| apply respects_frames | intros w' Hw'; frame].
  constructor; [frame|].
  intros reply w1 H1. destruct reply as [e|st b].
  { rewrite Herr. constructor. frame. }
  rewrite Hbody. destruct (ok _).
  - apply obeys_catch;
      [| apply respects_keeps | intros e w' Hw'; constructor; frame].
    eapply obeys_weaken; [apply loadInitialData_obeys; frame|].
    intros w2 H2. frame.
  - destruct (Nat.eqb st 401); [constructor; frame|].
    constructor; [now apply keeps_refl|].
    intros w2 H2. constructor. unfold gets.
    rewrite fetched_by_other by reflexivity. frame.
Qed.

Lemma deleteSentence_obeys id answer w :
  Inv initial w ->
  Obeys initial (frames initial w) (deleteSentence id answer w).
Proof.
  intros Hw. destruct answer.
  2:{ cbn. constructor. frame. }
  destruct (deleteSentence_confirmed id w) as [body [Heq [Hbody Herr]]].
  rewrite Heq. constructor; [frame|].
  intros reply w1 H1. destruct reply as [e|st b].
  { rewrite Herr. constructor. frame. }
  rewrite Hbody. destruct (ok _).
  - apply obeys_catch;
      [| apply respects_keeps | intros e w' Hw'; constructor; frame].
    eapply obeys_weaken; [apply loadInitialData_obeys; frame|].
    intros w2 H2. now apply frames_keeps.
  - destruct (Nat.eqb st 403); [constructor; frame|].
    destruct (Nat.eqb st 401); [constructor; frame|].
    constructor; [now apply keeps_refl|].
    intros w2 H2. constructor. unfold gets.
    rewrite fetched_by_other by reflexivity. frame.
Qed.

Lemma obj_set_keys key v (o : JsObject) :
  In key (obj_keys o) -> obj_keys (obj_set key v o) = obj_keys o.
Proof.
  induction o as [|[k x] o IH]; simpl; [tauto|].
  intros [<-|H].
  - now rewrite String.eqb_refl.
  - destruct (String.eqb k key); simpl; [reflexivity|]. now rewrite IH.
Qed.

Lemma handleFilterChange_obeys key v w :
  In key filter_keys -> Inv initial w ->
  Obeys initial
    (frames initial
       (set_currentFilters (obj_set key v (currentFilters w)) w))
    (handleFilterChange key v w)
  /\ Inv initial (set_currentFilters (obj_set key v (currentFilters w)) w).
Proof.
  intros Hk Hw.
  assert (H1 : Inv initial
                 (set_currentFilters (obj_set key v (currentFilters w)) w)).
  { destruct Hw as [K V]. split; [|exact V].
    unfold keys_ok in *. cbn. rewrite obj_set_keys; [exact K|].
    now rewrite K. }
  split; [|exact H1].
  unfold handleFilterChange, bind, act. cbn [bind_run].
  now apply fetchAndRenderSentences_obeys.
Qed.

Lemma clearAllFilters_obeys w :
  Inv initial w ->
  exists w1,
    Obeys initial (frames initial w1) (clearAllFilters w)
    /\ keeps initial w w1.
Proof.
  intros Hw. unfold clearAllFilters, bind, act. cbn [bind_run].
  eexists; split.
  - apply fetchAndRenderSentences_obeys. frame.
  - frame.
Qed.

Lemma spawn_ok (P : World -> Prop) (r : Run unit) pool :
  Obeys initial P r -> Forall (task_ok initial) pool ->
  P (world (spawn r pool))
  /\ Forall (task_ok initial) (pending (spawn r pool)).
Proof.
  intros H Hp. inversion H; subst; cbn; (split; [assumption|]);
    try assumption; apply Forall_app; (split; [assumption|]);
    (constructor; [assumption | constructor]).
Qed.

Lemma take_Forall {A} (Q : A -> Prop) i (l : list A) x rest :
  take i l = Some (x, rest) -> Forall Q l -> Q x /\ Forall Q rest.
Proof.
  revert i x rest. induction l as [|y l IH]; intros i x rest; simpl.
  - destruct i; discriminate.
  - destruct i as [|i]; simpl.
    + intros E H. injection E as <- <-. inversion H; subst. now split.
    + destruct (take i l) as [[z rest']|] eqn:E; [|discriminate].
      intros E' H. injection E' as <- <-. inversion H; subst.
      destruct (IH _ _ _ E H3) as [Hz Hr]. split; [assumption|].
      now constructor.
Qed.

(** What the listener of an event leaves behind. *)
Lemma listener_ok e w r :
  Inv initial w -> listener e w = Some r ->
  exists w1,
    Obeys initial (frames initial w1) r
    /\ allSentences w1 = allSentences w
    /\ same_clock (clock_of e w) w1.
Proof.
  intros Hw. destruct e; cbn [listener]; intros E;
    try discriminate; try (injection E as <-).
  - eexists; split; [constructor; apply frames_refl|]; frame.
  - eexists; split; [constructor; apply frames_refl|]; frame.
  - eexists; split; [constructor; apply frames_refl|]; frame.
  - destruct (disabled _); [discriminate|]. injection E as <-.
    exists w; split; [now apply addSentence_obeys|]; frame.
  - destruct (String.eqb key "Enter"); injection E as <-.
    + exists w; split; [now apply addSentence_obeys|]; frame.
    + exists w; split; [constructor; now apply frames_refl|]; frame.
  - eexists; split; [apply handleFilterChange_obeys|];
      [cbn; tauto | frame | frame].
  - eexists; split; [apply handleFilterChange_obeys|];
      [cbn; tauto | frame | frame].
  - eexists; split; [apply handleFilterChange_obeys|];
      [cbn; tauto | frame | frame].
  - destruct (clearAllFilters_obeys w Hw) as [w1 [H1 H2]].
    exists w1; split; [exact H1|]. frame.
  - eexists; split; [constructor; apply frames_refl|].
    + unfold on_search_input, setTimeout, clearTimeout. cbn.
      destruct (searchTimeout w); frame.
    + unfold clock_of, on_search_input, setTimeout, clearTimeout. cbn.
      destruct (searchTimeout w); frame.
  - destruct (existsb _ _); [|discriminate]. injection E as <-.
    exists w; split; [now apply deleteSentence_obeys|]; frame.
  - eexists; split; [constructor; apply frames_refl|]; frame.
  - destruct (due id w); [|discriminate]. injection E as <-.
    eexists; split; [apply handleFilterChange_obeys|];
      [cbn; tauto | frame | frame].
Qed.

Lemma clock_ok_same w w1 q :
  clock_ok w q -> same_clock w w1 -> clock_ok w1 q.
Proof.
  unfold clock_ok, same_clock. intros H [T [N [_ S]]].
  rewrite T, N, S. exact H.
Qed.

(** The clock invariant through the timer operations of an event. *)
Lemma clock_ok_step e w q :
  clock_ok w q -> clock_ok (clock_of e w) (quiet_step q e).
Proof.
  intros H. destruct e; try exact H.
  - (* a keystroke: the pending timer, if any, is replaced *)
    right. exists (next_timer w), (now w + search_delay), 0.
    unfold clock_of, on_search_input, setTimeout, clearTimeout.
    destruct H as [T|[id [d [e [T [S _]]]]]].
    + destruct (searchTimeout w); cbn; rewrite T; cbn;
        repeat split; lia.
    + rewrite S. cbn. rewrite T. cbn. rewrite Nat.eqb_refl. cbn.
      repeat split; lia.
  - (* time passes *)
    destruct H as [T|[id [d [e [T [S [-> E]]]]]]]; [left; exact T|].
    right. exists id, d, (e + ms). cbn. repeat split; try assumption. lia.
  - (* the timer fires *)
    destruct H as [T|[i [d [e [T [S [-> E]]]]]]].
    + left. cbn. now rewrite T.
    + cbn. rewrite T. cbn. destruct (Nat.eqb i id); cbn.
      * now left.
      * right. exists i, d, e. repeat split; assumption.
Qed.

(** One turn of the event loop keeps the invariants; the cached array
    changes only when a successful sentence fetch is delivered, and then
    the list shows that array. *)
Lemma react_ok p e p' q :
  page_ok initial p -> clock_ok (world p) q -> react p e = Some p' ->
  page_ok initial p'
  /\ clock_ok (world p') (quiet_step q e)
  /\ match fetched p e with
     | Some ss =>
         allSentences (world p') = ss
         /\ sentencesList (world p') = rendering (nameInput (world p)) ss
     | None => allSentences (world p') = allSentences (world p)
     end.
Proof.
  intros [Hw Hp] Hq.
  assert (Hlistener :
            forall r, listener e (world p) = Some r ->
                      p' = spawn r (pending p) ->
                      fetched p e = None ->
                      page_ok initial p'
                      /\ clock_ok (world p') (quiet_step q e)
                      /\ allSentences (world p') = allSentences (world p)).
  { intros r Hr -> _.
    destruct (listener_ok e (world p) r Hw Hr) as [w1 [Hr1 [Hs Hc]]].
    destruct (spawn_ok _ _ _ Hr1 Hp) as [[HI [HC [HS _]]] Hpool].
    split; [split; assumption|]. split; [|congruence].
    eapply clock_ok_same; [apply clock_ok_step; eassumption|].
    exact (same_clock_trans _ _ _ Hc HC). }
  destruct e; cbn [react];
    try (destruct (listener _ (world p)) as [r|] eqn:Hr; [|discriminate];
         intros E; injection E as <-;
         exact (Hlistener r eq_refl eq_refl eq_refl)).
  - (* a fetch settles *)
    clear Hlistener. cbn [fetched].
    destruct (take i (pending p)) as [[[req k|resp k] rest]|] eqn:Et;
      try discriminate.
    intros E; injection E as <-.
    destruct (take_Forall _ _ _ _ _ Et Hp) as [Hk Hrest].
    destruct (spawn_ok _ _ _ (Hk reply (world p) Hw) Hrest)
      as [[HI [HC HS]] Hpool].
    split; [split; assumption|]. split; [|exact HS].
    eapply clock_ok_same; eassumption.
  - (* a body is read *)
    clear Hlistener. cbn [fetched].
    destruct (take i (pending p)) as [[[req k|resp k] rest]|] eqn:Et;
      try discriminate.
    intros E; injection E as <-.
    destruct (take_Forall _ _ _ _ _ Et Hp) as [Hk Hrest].
    destruct (spawn_ok _ _ _ (Hk (world p) Hw) Hrest)
      as [[HI [HC HS]] Hpool].
    split; [split; assumption|]. split; [|exact HS].
    eapply clock_ok_same; eassumption.
Qed.

Lemma run_ok es : forall p p' acc q,
  page_ok initial p -> allSentences (world p) = cached acc ->
  clock_ok (world p) q -> run_events p es = Some p' ->
  page_ok initial p'
  /\ allSentences (world p') = cached (last_fetched p es acc)
  /\ clock_ok (world p') (quiet_for es q).
Proof.
  induction es as [|e es IH]; intros p p' acc q Hp Ha Hq; simpl.
  - intros E; injection E as <-. split; [|split]; assumption.
  - destruct (react p e) as [p1|] eqn:Hr; [|discriminate].
    intros Hrun.
    destruct (react_ok p e p1 q Hp Hq Hr) as [Hp1 [Hq1 Hf]].
    apply (IH p1 p' _ _ Hp1); try assumption.
    destruct (fetched p e) as [ss|]; cbn [cached].
    + apply Hf.
    + congruence.
Qed.

End PageMethods.

Section Reachable.

Local Arguments loadInitialData : simpl never.

Lemma boot_ok (d : World) :
  page_ok (sentencesList d) (boot d)
  /\ allSentences (world (boot d)) = []
  /\ clock_ok (world (boot d)) None.
Proof.
  unfold boot, init.
  assert (H0 : Inv (sentencesList d) (constructor (page_load d))).
  { split; [reflexivity | left; reflexivity]. }
  destruct (spawn_ok _ _ _ [] (loadInitialData_obeys _ _ H0)
              (Forall_nil _))
    as [[HI [[T _] [HS _]]] Hpool].
  split; [split; assumption|]. split.
  - rewrite HS. reflexivity.
  - left. rewrite T. reflexivity.
Qed.

(** The invariants of every page a history leads to. *)
Lemma page_invariant d es p :
  Reaches d es p ->
  page_ok (sentencesList d) p
  /\ allSentences (world p) = cached (last_fetched (boot d) es None)
  /\ clock_ok (world p) (quiet_for es None).
Proof.
  intros H. destruct (boot_ok d) as [H1 [H2 H3]].
  exact (run_ok _ es _ _ None None H1 H2 H3 H).
Qed.

End Reachable.

(* ================================================================== *)
(** * Properties of the page *)
(* ================================================================== *)

Section PageClaims.

Local Arguments trim : simpl never.
Local Arguments urlencode : simpl never.
Local Arguments renderSentences : simpl never.
Local Arguments renderActiveFiltersText : simpl never.
Local Arguments sentences_url : simpl never.
Local Arguments parse_query : simpl never.

Lemma sentences_url_FilterState w c u s q :
  currentFilters w = FilterState c u s q ->
  sentences_url w
  = "/api/sentences?category=" ++ urlencode c ++ "&user=" ++ urlencode u
    ++ "&sortBy=" ++ urlencode s ++ "&search=" ++ urlencode q.
Proof.
  intros E. unfold sentences_url, URLSearchParams_toString. rewrite E.
  unfold FilterState, urlencode_pair. cbn [map join fst snd].
  change (urlencode "category") with "category".
  change (urlencode "user") with "user".
  change (urlencode "sortBy") with "sortBy".
  change (urlencode "search") with "search".
  rewrite !append_assoc. reflexivity.
Qed.

(** C1. Whatever the four values of the filter object, the request
    [fetchAndRenderSentences] issues is a GET of [/api/sentences?]
    followed by [category=], [user=], [sortBy=] and [search=], each with
    the value the controller holds, form-encoded, and joined by
    ampersands; read back, that query has these four keys with these
    values and no other. And the filter object has exactly these four
    keys on every page a history leads to. *)
Theorem read_request_has_the_four_filters :
  (forall w c u s q,
      currentFilters w = FilterState c u s q ->
      (exists k,
          fetchAndRenderSentences w = AwaitFetch w (GET (sentences_url w)) k)
      /\ sentences_url w
         = "/api/sentences?category=" ++ urlencode c
           ++ "&user=" ++ urlencode u
           ++ "&sortBy=" ++ urlencode s
           ++ "&search=" ++ urlencode q
      /\ parse_query (query_of_url (sentences_url w))
         = [("category", c); ("user", u); ("sortBy", s); ("search", q)])
  /\ (forall d es p,
        Reaches d es p ->
        exists c u s q, currentFilters (world p) = FilterState c u s q).
Proof.
  split.
  - intros w c u s q E. split; [|split].
    + eexists. reflexivity.
    + now apply sentences_url_FilterState.
    + unfold sentences_url. rewrite query_of_sentences_url.
      rewrite parse_query_toString. exact E.
  - intros d es p H.
    destruct (page_invariant d es p H) as [[[K _] _] _].
    exact (keys_shape _ K).
Qed.

Lemma read_request_has_the_four_filters_witness :
  sentences_url
    (set_currentFilters (FilterState "jokes" "all" "newest" "") Sample.ready)
  = "/api/sentences?category=jokes&user=all&sortBy=newest&search="
  /\ exists c u s q,
       currentFilters (world (boot Sample.doc)) = FilterState c u s q.
Proof.
  split.
  - apply (proj1 (proj2 (proj1 read_request_has_the_four_filters
             (set_currentFilters (FilterState "jokes" "all" "newest" "")
                Sample.ready)
             "jokes" "all" "newest" "" eq_refl))).
  - apply (proj2 read_request_has_the_four_filters Sample.doc []
             (boot Sample.doc) eq_refl).
Defined.


(** The sample history, computed. *)
Lemma failed_refresh_page :
  exists p,
    Reaches Sample.doc Sample.failed_refresh p
    /\ sentencesList (world p) = [error_entry]
    /\ last_fetched (boot Sample.doc) Sample.failed_refresh None
       = Some [Sample.by_bob; Sample.by_amy].
Proof.
  assert (F : option_map (fun p => sentencesList (world p))
                (run_events (boot Sample.doc) Sample.failed_refresh)
              = Some [error_entry]) by (vm_compute; reflexivity).
  unfold Reaches.
  destruct (run_events (boot Sample.doc) Sample.failed_refresh) as [p|];
    [|discriminate].
  exists p. split; [reflexivity|]. split.
  - now injection F.
  - vm_compute. reflexivity.
Qed.



Lemma obj_set_search c u s q v :
  obj_set "search" v (FilterState c u s q) = FilterState c u s v.
Proof. reflexivity. Qed.

Lemma search_of_url w c u s v :
  currentFilters w = FilterState c u s v ->
  obj_get "search" (parse_query (query_of_url (sentences_url w))) = Some v.
Proof.
  intros E. unfold sentences_url. rewrite query_of_sentences_url.
  rewrite parse_query_toString, E. reflexivity.
Qed.

(** C9. On every page a history leads to: at most one timer is pending;
    a keystroke in the search field leaves exactly one, the new one, due
    300 ms later (the one that was pending is cancelled), and starts no
    fetch; and when the timer fires, at least 300 ms have passed since
    the last keystroke, no timer is left, and exactly one request is
    started, the sentence read, whose [search] key has the value the
    field holds at that moment. *)
Theorem search_is_debounced d es p :
  Reaches d es p ->
  List.length (timers (world p)) <= 1
  /\ (forall v p',
        react p (InputSearch v) = Some p' ->
        timers (world p')
        = [(next_timer (world p), now (world p) + 300)]
        /\ searchTimeout (world p') = Some (next_timer (world p))
        /\ pending p' = pending p)
  /\ (forall id p',
        react p (TimerFires id) = Some p' ->
        (exists t, quiet_for es None = Some t /\ 300 <= t)
        /\ timers (world p') = []
        /\ exists k,
             pending p'
             = app (pending p)
                 [WaitFetch (GET (sentences_url (world p'))) k]
             /\ obj_get "search"
                  (parse_query (query_of_url (sentences_url (world p'))))
                = Some (searchInput (world p))).
Proof.
  intros H.
  destruct (page_invariant d es p H) as [[[K V] Hp] [_ Hq]].
  split; [|split].
  - destruct Hq as [T|[id [d0 [e [T _]]]]]; rewrite T; cbn; lia.
  - intros v p'. cbn [react listener]. intros E; injection E as <-.
    unfold act, spawn, on_search_input, setTimeout, clearTimeout.
    destruct Hq as [T|[id [d0 [e [T [S _]]]]]].
    + destruct (searchTimeout (set_searchInput v (world p))) eqn:Es;
        cbn; rewrite ?T; cbn; repeat split; reflexivity.
    + cbn [searchTimeout set_searchInput]. rewrite S. cbn. rewrite T. cbn.
      rewrite Nat.eqb_refl. cbn. repeat split; reflexivity.
  - intros id p'. cbn [react listener].
    destruct (due id (world p)) eqn:Hdue; [|discriminate].
    intros E; injection E as <-.
    unfold due in Hdue.
    destruct Hq as [T|[i [d0 [e [T [S [Eq Hd]]]]]]];
      rewrite T in Hdue; cbn in Hdue; [discriminate|].
    rewrite orb_false_r in Hdue. apply andb_true_iff in Hdue as [Hi Hle].
    apply Nat.eqb_eq in Hi. apply Nat.leb_le in Hle. subst i.
    split; [|split].
    + exists e. split; [exact Eq|]. unfold search_delay in Hd. lia.
    + cbn. rewrite T. cbn. rewrite Nat.eqb_refl. reflexivity.
    + destruct (keys_shape _ K) as [c [u [s [q E]]]].
      eexists. split; [reflexivity|].
      apply (search_of_url _ c u s). cbn. rewrite E. reflexivity.
Qed.

(** Two keystrokes 100 ms apart, and 300 ms of silence. *)
Lemma typing_page :
  exists p p',
    Reaches Sample.doc Sample.typing p
    /\ react p (TimerFires 2) = Some p'
    /\ quiet_for Sample.typing None = Some 300.
Proof.
  assert (F : match run_events (boot Sample.doc) Sample.typing with
              | Some p => match react p (TimerFires 2) with
                          | Some _ => true
                          | None => false
                          end
              | None => false
              end = true) by (vm_compute; reflexivity).
  unfold Reaches.
  destruct (run_events (boot Sample.doc) Sample.typing) as [p|];
    [|discriminate].
  destruct (react p (TimerFires 2)) as [p'|] eqn:E; [|discriminate].
  exists p, p'. repeat split; assumption || reflexivity.
Qed.

Lemma search_is_debounced_witness :
  exists p p',
    Reaches Sample.doc Sample.typing p
    /\ react p (TimerFires 2) = Some p'
    /\ List.length (timers (world p)) <= 1
    /\ timers (world p') = [].
Proof.
  destruct typing_page as [p [p' [H [R _]]]].
  exists p, p'. split; [exact H|]. split; [exact R|].
  destruct (search_is_debounced _ _ _ H) as [H1 [_ H3]].
  split; [exact H1|]. exact (proj1 (proj2 (H3 _ _ R))).
Defined.

End PageClaims.

(* ================================================================== *)
(** * Further properties *)
(* ================================================================== *)

Section TextProperties.





End TextProperties.

Section FilterProperties.

Local Arguments sentences_url : simpl never.
Local Arguments parse_query : simpl never.
Local Arguments URLSearchParams_toString : simpl never.
Local Arguments fetchAndRenderSentences : simpl never.

(** X2. The query string [URLSearchParams] writes reads back as the object
    it was built from, for every object: the same keys in the same order,
    each with its value, whatever bytes the keys and values hold; and in
    what is written for a value, no ampersand and no equals sign
    appears. *)
Theorem query_round_trip :
  (forall o : JsObject, parse_query (URLSearchParams_toString o) = o)
  /\ (forall s, urldecode (urlencode s) = s)
  /\ (forall s, has_byte "&" (urlencode s) = false
                /\ has_byte "=" (urlencode s) = false).
Proof.
  split; [exact parse_query_toString|].
  split; [exact urldecode_urlencode|].
  intros s. split; [apply urlencode_no_amp | apply urlencode_no_eq].
Qed.

Lemma obj_get_set_same key v (o : JsObject) :
  obj_get key (obj_set key v o) = Some v.
Proof.
  induction o as [|[k x] o IH]; simpl.
  - now rewrite String.eqb_refl.
  - destruct (String.eqb k key) eqn:E; simpl; rewrite E; [reflexivity|].
    exact IH.
Qed.

Lemma obj_get_set_other key key' v (o : JsObject) :
  key' <> key -> obj_get key' (obj_set key v o) = obj_get key' o.
Proof.
  intros Hne. induction o as [|[k x] o IH]; simpl.
  - destruct (String.eqb_spec key key'); [congruence | reflexivity].
  - destruct (String.eqb_spec k key) as [->|Hk]; simpl.
    + destruct (String.eqb_spec key key'); [congruence | reflexivity].
    + destruct (String.eqb k key'); [reflexivity | exact IH].
Qed.

(** X3. With the filter object in its four keys,
    [handleFilterChange(key, value)] for one of them stores the value
    under the key and starts one sentence read whose query is the filter
    object after the change: the key has the new value, every other key
    the value it had, and the keys are the same four in the same order. *)
Theorem handleFilterChange_sends_the_change (key v : string) (w : World) :
  keys_ok w -> In key filter_keys ->
  let w' := set_currentFilters (obj_set key v (currentFilters w)) w in
  (exists k,
      handleFilterChange key v w = AwaitFetch w' (GET (sentences_url w')) k)
  /\ parse_query (query_of_url (sentences_url w'))
     = obj_set key v (currentFilters w)
  /\ obj_get key (parse_query (query_of_url (sentences_url w'))) = Some v
  /\ (forall key', key' <> key ->
        obj_get key' (parse_query (query_of_url (sentences_url w')))
        = obj_get key' (currentFilters w))
  /\ obj_keys (parse_query (query_of_url (sentences_url w'))) = filter_keys.
Proof.
  intros K Hkey w'.
  assert (E : parse_query (query_of_url (sentences_url w'))
              = obj_set key v (currentFilters w)).
  { unfold sentences_url. rewrite query_of_sentences_url.
    now rewrite parse_query_toString. }
  split; [eexists; reflexivity|].
  split; [exact E|]. rewrite E.
  split; [apply obj_get_set_same|].
  split; [intros key' Hne; now apply obj_get_set_other|].
  unfold keys_ok in K. rewrite obj_set_keys; [exact K|]. now rewrite K.
Qed.

Lemma handleFilterChange_sends_the_change_witness :
  exists k,
    handleFilterChange "user" "amy" Sample.ready
    = AwaitFetch
        (set_currentFilters (FilterState "all" "amy" "newest" "") Sample.ready)
        (GET "/api/sentences?category=all&user=amy&sortBy=newest&search=") k.
Proof.
  destruct (handleFilterChange_sends_the_change "user" "amy" Sample.ready
              eq_refl ltac:(cbn; tauto))
    as [[k H] _].
  exists k. exact H.
Defined.

(** X4. [clearAllFilters] puts the four defaults back in the filter
    object, empties the search field and starts one sentence read with the
    query of the defaults, but it does not cancel a pending search timer:
    on a page where one is pending, the timer is still there after the
    click, and once it is due it fires and starts a second read, with the
    same query of the defaults. *)
Theorem clearAllFilters_keeps_the_timer (p : Page) (id due_at : nat) :
  timers (world p) = [(id, due_at)] ->
  exists p1 k1,
    react p ClickClear = Some p1
    /\ pending p1
       = app (pending p)
           [WaitFetch
              (GET "/api/sentences?category=all&user=all&sortBy=newest&search=")
              k1]
    /\ currentFilters (world p1) = default_filters
    /\ searchInput (world p1) = ""
    /\ timers (world p1) = [(id, due_at)]
    /\ forall ms p2,
         react p1 (Elapse ms) = Some p2 ->
         due_at <= now (world p2) ->
         exists p3 k3,
           react p2 (TimerFires id) = Some p3
           /\ timers (world p3) = []
           /\ pending p3
              = app (pending p2)
                  [WaitFetch
                     (GET "/api/sentences?category=all&user=all&sortBy=newest&search=")
                     k3].
Proof.
  intros T. do 2 eexists.
  split; [reflexivity|]. split; [reflexivity|].
  split; [reflexivity|]. split; [reflexivity|].
  split; [exact T|].
  intros ms p2 E Hdue. cbn in E. injection E as <-.
  cbn [react listener]. unfold due. cbn [world timers set_now now].
  cbn. rewrite T. cbn. rewrite Nat.eqb_refl. cbn.
  apply Nat.leb_le in Hdue. cbn in Hdue. rewrite Hdue. cbn.
  do 2 eexists. split; [reflexivity|]. split; reflexivity.
Qed.

Lemma clearAllFilters_keeps_the_timer_witness :
  exists p1 k1,
    react (mkPage (on_search_input Sample.ready) []) ClickClear = Some p1
    /\ pending p1
       = [WaitFetch
            (GET "/api/sentences?category=all&user=all&sortBy=newest&search=")
            k1]
    /\ timers (world p1) = [(1, 300)].
Proof.
  destruct (clearAllFilters_keeps_the_timer
              (mkPage (on_search_input Sample.ready) []) 1 300 eq_refl)
    as [p1 [k1 [H1 [H2 [_ [_ [H3 _]]]]]]].
  exists p1, k1. split; [exact H1|]. split; [exact H2 | exact H3].
Defined.

End FilterProperties.

Section CallOutcomes.

Local Arguments ok : simpl never.
Local Arguments renderSentences : simpl never.
Local Arguments renderActiveFiltersText : simpl never.
Local Arguments loadInitialData : simpl never.
Local Arguments sentences_url : simpl never.
Local Arguments trim : simpl never.
Local Arguments rendering : simpl never.
Local Arguments string_of_nat : simpl never.
Local Arguments user_options : simpl never.
Local Arguments existsb : simpl never.

(** A call left alone is one of the executions of the call. *)
Lemma run_alone_Exec {A} (r : Run A) : forall replies reqs wf res,
  run_alone r replies = Some (reqs, wf, res) ->
  exists steps, Exec r steps wf res /\ requests steps = reqs.
Proof.
  induction r as [w r|w req k IH|w resp k IH]; intros replies reqs wf res;
    simpl.
  - destruct replies; [|discriminate]. intros E; injection E as <- <- <-.
    exists []. split; [constructor | reflexivity].
  - destruct replies as [|reply rest]; [discriminate|].
    destruct (run_alone (k reply w) rest) as [[[q w1] r1]|] eqn:E;
      [|discriminate].
    intros E'; injection E' as <- <- <-.
    destruct (IH _ _ _ _ _ _ E) as [steps [H1 H2]].
    exists (Fetched req reply w :: steps). split; [now constructor|].
    simpl. now rewrite H2.
  - intros E. destruct (IH _ _ _ _ _ E) as [steps [H1 H2]].
    exists (Parsed resp w :: steps). split; [now constructor | exact H2].
Qed.

(** X5. When the delete request is answered 403, [deleteSentence] shows
    the alert about ownership and ends: no further request (so no reload
    of the lists) and no navigation, the world is the one the call resumed
    on with the alert added. *)
Theorem forbidden_delete_only_alerts id w req b w1 steps wf res :
  Exec (deleteSentence id true w)
    (Fetched req (Arrived 403 b) w1 :: steps) wf res ->
  steps = []
  /\ wf = alert
            "You can only delete your own messages. This message belongs to another user."
            w1
  /\ location wf = location w1
  /\ sentencesList wf = sentencesList w1
  /\ allSentences wf = allSentences w1.
Proof.
  intros H.
  destruct (deleteSentence_confirmed id w) as [body [Heq [Hbody _]]].
  rewrite Heq in H.
  apply Exec_fetch_inv in H as [reply [w3 [E H]]].
  injection E as -> <- <-. rewrite Hbody in H.
  change (ok _) with false in H. cbn in H.
  inversion H; subst. repeat split; reflexivity.
Qed.


(** X7. When the fetch of a create or of a delete is rejected (no answer
    from the network), the call shows one alert with the message of the
    rejection and ends without another request; the text typed in the
    form is kept, and after a create the button is enabled again. *)
Theorem network_failure_alerts :
  (forall w req e w1 steps wf res,
      trim (sentenceInput w) <> "" -> trim (nameInput w) <> "" ->
      Exec (addSentence w) (Fetched req (NetworkError e) w1 :: steps) wf res ->
      steps = []
      /\ dialogs wf = app (dialogs w1) [Alert ("Error creating message: " ++ e)]
      /\ sentenceInput wf = sentenceInput w1
      /\ addSentenceBtn wf = mkButton "Add" false)
  /\ (forall id w req e w1 steps wf res,
        Exec (deleteSentence id true w)
          (Fetched req (NetworkError e) w1 :: steps) wf res ->
        steps = []
        /\ dialogs wf
           = app (dialogs w1) [Alert ("Error deleting message: " ++ e)]
        /\ sentencesList wf = sentencesList w1).
Proof.
  split.
  - intros w req e w1 steps wf res Ht Hn H.
    destruct (addSentence_valid w Ht Hn) as [body [Heq [_ Herr]]].
    rewrite Heq in H. apply Exec_finally in H as [w2 [H ->]].
    apply Exec_fetch_inv in H as [reply [w3 [E H]]].
    injection E as -> <- <-. rewrite Herr in H.
    inversion H; subst. repeat split; reflexivity.
  - intros id w req e w1 steps wf res H.
    destruct (deleteSentence_confirmed id w) as [body [Heq [_ Herr]]].
    rewrite Heq in H.
    apply Exec_fetch_inv in H as [reply [w3 [E H]]].
    injection E as -> <- <-. rewrite Herr in H.
    inversion H; subst. repeat split; reflexivity.
Qed.

Lemma fold_add_option (users : list string) (s : Select) :
  fold_left (fun s u => add_option u s) users s
  = mkSelect (app (options s) (map (fun u => (u, u)) users)) (value s).
Proof.
  revert s. induction users as [|u users IH]; intros s; simpl.
  - rewrite app_nil_r. destruct s; reflexivity.
  - rewrite IH. unfold add_option. cbn. rewrite <- app_assoc. reflexivity.
Qed.


Lemma renderActiveFiltersText_cases w :
  (exists t, renderActiveFiltersText w = Done (set_activeFilters t w) (Ok tt)
             /\ obj_get "sortBy" (currentFilters w) <> None)
  \/ (exists e, renderActiveFiltersText w
                = Done (set_activeFilters "" w) (Thrown e)
                /\ obj_get "sortBy" (currentFilters w) = None).
Proof.
  unfold renderActiveFiltersText.
  destruct (obj_get "sortBy" (currentFilters w)) as [s|].
  - left. destruct (Nat.ltb _ _); eexists; (split; [reflexivity|discriminate]).
  - right. eexists. split; reflexivity.
Qed.

Lemma run_alone_bind {A B} (r : Run A) (f : A -> Async B) :
  forall l1 l2 q1 w1 a,
    run_alone r l1 = Some (q1, w1, Ok a) ->
    run_alone (bind_run r f) (app l1 l2)
    = match run_alone (f a w1) l2 with
      | Some (q2, w2, res) => Some (app q1 q2, w2, res)
      | None => None
      end.
Proof.
  induction r as [w [a0|e]|w req k IH|w resp k IH]; intros l1 l2 q1 w1 a;
    simpl.
  - destruct l1; [|discriminate]. intros E; injection E as <- <- <-.
    simpl. destruct (run_alone (f a0 w) l2) as [[[q2 w2] res]|]; reflexivity.
  - destruct l1; discriminate.
  - destruct l1 as [|reply rest]; [discriminate|].
    destruct (run_alone (k reply w) rest) as [[[q w2] r2]|] eqn:E;
      [|discriminate].
    intros E'; inversion E'; subst; clear E'. simpl.
    erewrite IH by eassumption.
    match goal with
    | |- context [run_alone (f ?a ?w) l2] =>
        destruct (run_alone (f a w) l2) as [[[q2 w3] res]|]; reflexivity
    end.
  - intros E. exact (IH _ _ l2 _ _ _ E).
Qed.

Lemma run_alone_catch_ok {A} (r : Run A) handler :
  forall l q w a,
    run_alone r l = Some (q, w, Ok a) ->
    run_alone (catch_run r handler) l = Some (q, w, Ok a).
Proof.
  induction r as [w [a0|e]|w req k IH|w resp k IH]; intros l q w1 a; simpl.
  - trivial.
  - destruct l; discriminate.
  - destruct l as [|reply rest]; [discriminate|].
    destruct (run_alone (k reply w) rest) as [[[q0 w2] r2]|] eqn:E;
      [|discriminate].
    intros E'; inversion E'; subst; clear E'.
    erewrite IH by eassumption. reflexivity.
  - intros E. exact (IH _ _ _ _ _ E).
Qed.

Lemma run_alone_finally {A} (r : Run A) cleanup : forall l,
  run_alone (finally_run r cleanup) l
  = match run_alone r l with
    | Some (q, w, res) => Some (q, cleanup w, res)
    | None => None
    end.
Proof.
  induction r as [w res|w req k IH|w resp k IH]; intros l; simpl.
  - destruct l; reflexivity.
  - destruct l as [|reply rest]; [reflexivity|]. rewrite IH.
    destruct (run_alone (k reply w) rest) as [[[q w2] r2]|]; reflexivity.
  - apply IH.
Qed.

(** How a reply fails a request: a rejection, or a status outside 2xx. *)
Lemma loadUsersForFilter_alone_failure w reply :
  (match reply with
   | NetworkError _ => True
   | Arrived st _ => ~ (200 <= st <= 299)
   end) ->
  exists e,
    run_alone (loadUsersForFilter w) [reply]
    = Some ([GET "/api/sentences/users"],
            console_error "❌ Error loading users:" e w, Ok tt).
Proof.
  intros Hfail.
  unfold loadUsersForFilter, try_catch, bind, fetch, json, throw, act.
  destruct reply as [e|st b]; cbn.
  - eexists; reflexivity.
  - destruct (ok _) eqn:Hok; [apply ok_range in Hok; contradiction|].
    cbn. eexists; reflexivity.
Qed.

Lemma loadUsersForFilter_alone_success w st users :
  200 <= st <= 299 ->
  run_alone (loadUsersForFilter w) [Arrived st (UserNames users)]
  = Some ([GET "/api/sentences/users"],
          set_userFilter
            (select_value (show (obj_get "user" (currentFilters w)))
               (mkSelect (user_options users) "all"))
            (set_allUsers users w),
          Ok tt).
Proof.
  intros Hst.
  unfold loadUsersForFilter, try_catch, bind, fetch, json, throw, act.
  cbn. rewrite (proj2 (ok_range _ _ _) Hst). cbn.
  rewrite fold_add_option. reflexivity.
Qed.

(** A sentence read left alone: one request, and an end without
    exception; what it leaves untouched. *)
Lemma fetchAndRenderSentences_alone w reply :
  exists wf,
    run_alone (fetchAndRenderSentences w) [reply]
    = Some ([GET (sentences_url w)], wf, Ok tt)
    /\ userFilter wf = userFilter w /\ allUsers wf = allUsers w
    /\ dialogs wf = dialogs w /\ location wf = location w
    /\ sentenceInput wf = sentenceInput w
    /\ categorySelect wf = categorySelect w
    /\ addSentenceBtn wf = addSentenceBtn w
    /\ currentFilters wf = currentFilters w.
Proof.
  unfold fetchAndRenderSentences, try_catch, bind, fetch, json, throw, act.
  destruct reply as [e|st b]; cbn.
  { eexists. split; [reflexivity|]. repeat split. }
  destruct (ok _); cbn.
  2:{ eexists. split; [reflexivity|]. repeat split. }
  destruct b as [m|us|ss|eo]; cbn.
  1,2,4: eexists; (split; [reflexivity|]); repeat split.
  match goal with
  | |- context [renderActiveFiltersText ?x] =>
      destruct (renderActiveFiltersText_cases x) as [[t [-> _]]|[e3 [-> _]]]
  end; cbn; (eexists; split; [reflexivity|]);
    rewrite renderSentences_eq; repeat split.
Qed.

(** X8. When the user list cannot be loaded (the fetch is rejected or
    answered with a status outside 2xx), [loadInitialData] still goes on to
    the sentence read, with the query of the current filters; the options
    of the user filter, its selection and the cached user names stay as
    they were, and nothing is shown in a dialog. *)
Theorem users_failure_does_not_stop_the_load w reply1 reply2 :
  (match reply1 with
   | NetworkError _ => True
   | Arrived st _ => ~ (200 <= st <= 299)
   end) ->
  exists wf,
    run_alone (loadInitialData w) [reply1; reply2]
    = Some ([GET "/api/sentences/users"; GET (sentences_url w)], wf, Ok tt)
    /\ userFilter wf = userFilter w
    /\ allUsers wf = allUsers w
    /\ dialogs wf = dialogs w.
Proof.
  intros Hfail.
  destruct (loadUsersForFilter_alone_failure w reply1 Hfail) as [e H1].
  destruct (fetchAndRenderSentences_alone
              (console_error "❌ Error loading users:" e w) reply2)
    as [wf [H2 [F1 [F2 [F3 _]]]]].
  exists wf. split; [|repeat split; assumption].
  unfold loadInitialData, bind.
  change [reply1; reply2] with (app [reply1] [reply2]).
  rewrite (run_alone_bind _ _ _ _ _ _ _ H1), H2. reflexivity.
Qed.

Lemma existsb_option_value (v : string) (opts : list (string * string)) :
  existsb (fun o => String.eqb (fst o) v) opts = true
  <-> In v (map fst opts).
Proof.
  rewrite existsb_exists. split.
  - intros [[a b] [Hin E]]. apply String.eqb_eq in E. cbn in E. subst.
    apply in_map_iff. exists (v, b). now split.
  - intros Hin. apply in_map_iff in Hin as [[a b] [E Hin]]. cbn in E. subst.
    exists (v, b). split; [assumption | apply String.eqb_refl].
Qed.

Lemma user_options_values users :
  map fst (user_options users) = "all" :: users.
Proof.
  unfold user_options. cbn. f_equal. rewrite map_map. cbn. apply map_id.
Qed.

Lemma user_options_eq users :
  user_options users = ("all", "All Users") :: map (fun u => (u, u)) users.
Proof. reflexivity. Qed.

(** X9. After the user list is loaded, the user filter offers [All Users]
    and then one option per user name, in the order of the answer, and the
    cached user names are those of the answer. The selection is put back
    on the user the filter object names when that user is [all] or is
    still in the list; when it is not, nothing is selected any more, while
    the filter object still names that user. *)
Theorem user_filter_after_load w st users :
  200 <= st <= 299 ->
  exists wf,
    run_alone (loadUsersForFilter w) [Arrived st (UserNames users)]
    = Some ([GET "/api/sentences/users"], wf, Ok tt)
    /\ allUsers wf = users
    /\ options (userFilter wf)
       = ("all", "All Users") :: map (fun u => (u, u)) users
    /\ currentFilters wf = currentFilters w
    /\ (forall u, obj_get "user" (currentFilters w) = Some u ->
          (u = "all" \/ In u users -> value (userFilter wf) = u)
          /\ (u <> "all" -> ~ In u users -> value (userFilter wf) = "")).
Proof.
  intros Hst. eexists.
  split; [apply (loadUsersForFilter_alone_success w st users Hst)|].
  cbn. split; [reflexivity|]. split; [apply user_options_eq|].
  split; [reflexivity|].
  intros u Hu. rewrite Hu. cbn [show].
  destruct (existsb _ _) eqn:E.
  - split; [reflexivity|].
    intros Hne Hnin. apply existsb_option_value in E.
    rewrite user_options_values in E. destruct E as [E|E]; congruence.
  - split; [|reflexivity].
    intros Hin.
    assert (E' : existsb (fun o => String.eqb (fst o) u) (user_options users)
                 = true).
    { apply existsb_option_value. rewrite user_options_values.
      destruct Hin as [->|Hin]; [now left | now right]. }
    congruence.
Qed.

Lemma user_filter_after_load_witness :
  exists wf,
    run_alone
      (loadUsersForFilter
         (set_currentFilters (FilterState "all" "amy" "newest" "")
            Sample.ready))
      [Arrived 200 (UserNames ["bob"])]
    = Some ([GET "/api/sentences/users"], wf, Ok tt)
    /\ value (userFilter wf) = ""
    /\ obj_get "user" (currentFilters wf) = Some "amy".
Proof.
  destruct (user_filter_after_load
              (set_currentFilters (FilterState "all" "amy" "newest" "")
                 Sample.ready)
              200 ["bob"] ltac:(lia))
    as [wf [H [_ [_ [Hf Hv]]]]].
  exists wf. split; [exact H|]. split.
  - apply (proj2 (Hv "amy" eq_refl)); [discriminate|].
    intros [E|[]]; discriminate E.
  - rewrite Hf. reflexivity.
Defined.

Lemma renderActiveFiltersText_text w sort :
  obj_get "sortBy" (currentFilters w) = Some sort ->
  renderActiveFiltersText w
  = Done (set_activeFilters
            ("Current View: "
             ++ join " | "
                  (app (filter_parts (currentFilters w))
                     ["Sorted by: **" ++ capitalize sort ++ "**"])) w)
      (Ok tt).
Proof.
  intros E. unfold renderActiveFiltersText. rewrite E.
  destruct (filter_parts _); reflexivity.
Qed.

Lemma fetchAndRenderSentences_alone_success w st ss :
  200 <= st <= 299 -> keys_ok w ->
  exists sort,
    obj_get "sortBy" (currentFilters w) = Some sort
    /\ run_alone (fetchAndRenderSentences w) [Arrived st (Sentences ss)]
       = Some ([GET (sentences_url w)],
               set_activeFilters
                 ("Current View: "
                  ++ join " | "
                       (app (filter_parts (currentFilters w))
                          ["Sorted by: **" ++ capitalize sort ++ "**"]))
                 (renderSentences (set_allSentences ss w)),
               Ok tt).
Proof.
  intros Hst K. destruct (keys_shape w K) as [c [u [s [q E]]]].
  exists s.
  assert (Es : obj_get "sortBy" (currentFilters w) = Some s)
    by (rewrite E; reflexivity).
  split; [exact Es|].
  unfold fetchAndRenderSentences, try_catch, bind, fetch, json, throw, act.
  cbn. rewrite (proj2 (ok_range _ _ _) Hst). cbn.
  rewrite (renderActiveFiltersText_text _ s).
  - rewrite renderSentences_eq. reflexivity.
  - rewrite renderSentences_eq. exact Es.
Qed.

(** X10. A create that succeeds, left alone, with both lists then loaded:
    the call issues the create request, the user list request and the
    sentence read, in this order; it ends with the message field emptied,
    the button enabled again, the user names and the sentences of the
    answers cached, the list showing the rendering of the sentences and
    the count their number, and no dialog shown. *)
Theorem create_then_reload w st b st1 users st2 ss :
  trim (sentenceInput w) <> "" -> trim (nameInput w) <> "" -> keys_ok w ->
  200 <= st <= 299 -> 200 <= st1 <= 299 -> 200 <= st2 <= 299 ->
  exists wf,
    run_alone (addSentence w)
      [Arrived st b; Arrived st1 (UserNames users); Arrived st2 (Sentences ss)]
    = Some ([create_request w; GET "/api/sentences/users";
             GET (sentences_url w)], wf, Ok tt)
    /\ sentenceInput wf = ""
    /\ addSentenceBtn wf = mkButton "Add" false
    /\ allUsers wf = users
    /\ allSentences wf = ss
    /\ sentencesList wf = rendering (nameInput w) ss
    /\ sentencesCount wf = string_of_nat (List.length ss) ++ " Messages"
    /\ dialogs wf = dialogs w.
Proof.
  intros Ht Hn K Hst Hst1 Hst2.
  destruct (addSentence_valid w Ht Hn) as [body [Heq [Hbody _]]].
  rewrite Heq, run_alone_finally. cbn [run_alone]. rewrite Hbody.
  rewrite (proj2 (ok_range _ _ _) Hst).
  set (w1 := set_categorySelect _ _).
  pose proof (loadUsersForFilter_alone_success w1 st1 users Hst1) as H1.
  set (w2 := set_userFilter _ _) in H1.
  assert (K2 : keys_ok w2) by exact K.
  destruct (fetchAndRenderSentences_alone_success w2 st2 ss Hst2 K2)
    as [sort [_ H2]].
  set (parts := filter_parts (currentFilters w2)) in H2.
  assert (H : run_alone (loadInitialData w1)
                [Arrived st1 (UserNames users); Arrived st2 (Sentences ss)]
              = Some ([GET "/api/sentences/users"; GET (sentences_url w)],
                      set_activeFilters
                        ("Current View: "
                         ++ join " | "
                              (app parts
                                 ["Sorted by: **" ++ capitalize sort ++ "**"]))
                        (renderSentences (set_allSentences ss w2)),
                      Ok tt)).
  { unfold loadInitialData, bind.
    change [Arrived st1 (UserNames users); Arrived st2 (Sentences ss)]
      with (app [Arrived st1 (UserNames users)] [Arrived st2 (Sentences ss)]).
    rewrite (run_alone_bind _ _ _ _ _ _ _ H1), H2. reflexivity. }
  rewrite (run_alone_catch_ok _ _ _ _ _ _ H).
  eexists. split; [reflexivity|].
  rewrite renderSentences_eq. cbn. repeat split.
Qed.

(** The run of [fetchAndRenderSentences] after its request. *)
Lemma fetchAndRenderSentences_head w :
  exists k,
    fetchAndRenderSentences w = AwaitFetch w (GET (sentences_url w)) k
    /\ (forall e w1,
          k (NetworkError e) w1
          = Done (set_sentencesList [error_entry]
                    (console_error "❌ Error fetching messages:" e w1))
              (Ok tt))
    /\ (forall st b w1,
          ok (mkResponse (GET (sentences_url w)) st b) = false ->
          k (Arrived st b) w1
          = Done (set_sentencesList [error_entry]
                    (console_error "❌ Error fetching messages:"
                       "Failed to fetch messages" w1))
              (Ok tt))
    /\ (forall st b w1,
          ok (mkResponse (GET (sentences_url w)) st b) = true ->
          exists k2,
            k (Arrived st b) w1
            = AwaitJson w1 (mkResponse (GET (sentences_url w)) st b) k2
            /\ (forall m w2, b = Malformed m ->
                  k2 w2
                  = Done (set_sentencesList [error_entry]
                            (console_error "❌ Error fetching messages:"
                               m w2))
                      (Ok tt))
            /\ (forall ss w2, b = Sentences ss ->
                  k2 w2
                  = catch_run
                      (renderActiveFiltersText
                         (renderSentences (set_allSentences ss w2)))
                      (fun error =>
                         act (fun w' =>
                           set_sentencesList [error_entry]
                             (console_error "❌ Error fetching messages:"
                                error w'))))).
Proof.
  unfold fetchAndRenderSentences, try_catch, bind, fetch, json, throw, act.
  eexists. split; [reflexivity|].
  split; [reflexivity|].
  split.
  - intros st b w1 Hok. cbn. rewrite Hok. reflexivity.
  - intros st b w1 Hok. cbn. rewrite Hok. cbn.
    eexists. split; [reflexivity|]. split.
    + intros m w2 ->. reflexivity.
    + intros ss w2 ->. reflexivity.
Qed.

(** X11. When a sentence read fails (the fetch is rejected, the status is
    outside 2xx, or the body is not JSON), [fetchAndRenderSentences] puts
    the single error line in the list and logs the failure, and that is
    all: the cached array, the count, the summary of the filters and the
    filter object stay as they were, and no dialog is shown. *)
Theorem failed_read_shows_error_line w req reply w1 steps wf res :
  Exec (fetchAndRenderSentences w) (Fetched req reply w1 :: steps) wf res ->
  (match reply with
   | NetworkError _ => True
   | Arrived st b =>
       ~ (200 <= st <= 299) \/ exists m, b = Malformed m
   end) ->
  exists w2,
    (steps = [] /\ w2 = w1 \/ exists resp, steps = [Parsed resp w2])
    /\ sentencesList wf = [error_entry]
    /\ allSentences wf = allSentences w2
    /\ sentencesCount wf = sentencesCount w2
    /\ activeFilters wf = activeFilters w2
    /\ currentFilters wf = currentFilters w2
    /\ dialogs wf = dialogs w2
    /\ List.length (console wf) = S (List.length (console w2)).
Proof.
  intros H Hfail.
  destruct (fetchAndRenderSentences_head w) as [k [Heq [Hnet [Hbad Hgood]]]].
  rewrite Heq in H.
  apply Exec_fetch_inv in H as [reply' [w3 [E H]]].
  injection E as -> <- <-.
  destruct reply as [e|st b].
  - rewrite Hnet in H. inversion H; subst.
    exists w1. split; [left; split; reflexivity|].
    cbn. rewrite length_app. cbn. repeat split; lia.
  - destruct (ok (mkResponse (GET (sentences_url w)) st b)) eqn:Hok.
    + destruct Hfail as [Hst|[m ->]];
        [apply ok_range in Hok; contradiction|].
      destruct (Hgood st _ w1 Hok) as [k2 [Hk [Hm _]]].
      rewrite Hk in H. inversion H; subst.
      match goal with
      | Hx : Exec (k2 _) _ _ _ |- _ =>
          rewrite (Hm _ _ eq_refl) in Hx; inversion Hx; subst
      end.
      eexists. split; [right; eexists; reflexivity|].
      cbn. rewrite length_app. cbn. repeat split; lia.
    + rewrite (Hbad _ _ _ Hok) in H. inversion H; subst.
      exists w1. split; [left; split; reflexivity|].
      cbn. rewrite length_app. cbn. repeat split; lia.
Qed.




(** X14. While a create is in flight the button is disabled, so a click
    on it starts nothing; but the Enter key in the message field still
    calls [addSentence], which sends the same create request a second
    time. *)
Theorem enter_submits_while_button_disabled (w : World) (pool : list Task) :
  trim (sentenceInput w) <> "" -> trim (nameInput w) <> "" ->
  let p := spawn (addSentence w) pool in
  disabled (addSentenceBtn (world p)) = true
  /\ (exists k, pending p = app pool [WaitFetch (create_request w) k])
  /\ react p ClickAdd = None
  /\ exists p' k',
       react p (Keypress "Enter") = Some p'
       /\ pending p' = app (pending p) [WaitFetch (create_request w) k'].
Proof.
  intros Ht Hn p.
  destruct (addSentence_valid w Ht Hn) as [body [Heq _]].
  assert (Hp : exists k,
             p = mkPage (set_addSentenceBtn (mkButton "Adding..." true) w)
                   (app pool [WaitFetch (create_request w) k])).
  { unfold p. rewrite Heq. cbn. eexists; reflexivity. }
  destruct Hp as [k Hp]. rewrite Hp.
  split; [reflexivity|]. split; [eexists; reflexivity|].
  split; [reflexivity|].
  cbn [react listener String.eqb Ascii.eqb Bool.eqb world].
  set (w1 := set_addSentenceBtn _ w).
  destruct (addSentence_valid w1 Ht Hn) as [body1 [Heq1 _]].
  rewrite Heq1. cbn. do 2 eexists. split; reflexivity.
Qed.




End CallOutcomes.

Section DisplayInvariant.

Variable d : World.

Local Arguments ok : simpl never.
Local Arguments renderSentences : simpl never.
Local Arguments renderActiveFiltersText : simpl never.
Local Arguments loadInitialData : simpl never.
Local Arguments loadUsersForFilter : simpl never.
Local Arguments fetchAndRenderSentences : simpl never.
Local Arguments sentences_url : simpl never.
Local Arguments trim : simpl never.
Local Arguments rendering : simpl never.
Local Arguments string_of_nat : simpl never.
Local Arguments user_options : simpl never.
Local Arguments select_value : simpl never.
Local Arguments existsb : simpl never.

Lemma preserves_bind {A B} (I : World -> Prop) (r : Run A) (f : A -> Async B) :
  Preserves I r -> (forall a w, I w -> Preserves I (f a w)) ->
  Preserves I (bind_run r f).
Proof.
  intros H Hf. induction H as [w res HI|w req k HI Hk IH|w resp k HI Hk IH];
    simpl.
  - destruct res as [a|e]; [now apply Hf | now constructor].
  - constructor; [assumption|]. intros reply w' Hw'. now apply IH.
  - constructor; [assumption|]. intros w' Hw'. now apply IH.
Qed.

Lemma preserves_catch {A} (I : World -> Prop) (r : Run A) handler :
  Preserves I r -> (forall e w, I w -> Preserves I (handler e w)) ->
  Preserves I (catch_run r handler).
Proof.
  intros H Hh. induction H as [w res HI|w req k HI Hk IH|w resp k HI Hk IH];
    simpl.
  - destruct res as [a|e]; [now constructor | now apply Hh].
  - constructor; [assumption|]. intros reply w' Hw'. now apply IH.
  - constructor; [assumption|]. intros w' Hw'. now apply IH.
Qed.

Lemma preserves_finally {A} (I : World -> Prop) (r : Run A) cleanup :
  Preserves I r -> (forall w, I w -> I (cleanup w)) ->
  Preserves I (finally_run r cleanup).
Proof.
  intros H Hc. induction H as [w res HI|w req k HI Hk IH|w resp k HI Hk IH];
    simpl.
  - constructor. now apply Hc.
  - constructor; [assumption|]. intros reply w' Hw'. now apply IH.
  - constructor; [assumption|]. intros w' Hw'. now apply IH.
Qed.

(** Solve a goal about what a world built by assignments shows, from
    what the world it was built from shows. *)
Ltac displays_by H :=
  let L := fresh "L" in
  let C := fresh "C" in
  let U := fresh "U" in
  destruct H as [L [C U]];
  unfold Displays, location_ok, count_ok, users_ok in *; cbn;
  (split; [first [exact L | right; reflexivity]|]);
  (split; [first [exact C | right; reflexivity]|]);
  first [exact U | right; reflexivity].

Lemma fetchAndRenderSentences_displays w :
  Displays d w -> Preserves (Displays d) (fetchAndRenderSentences w).
Proof.
  intros Hw. unfold fetchAndRenderSentences, try_catch, bind, fetch, json,
    throw, act. cbn.
  constructor; [assumption|].
  intros reply w1 H1. destruct reply as [e|st b]; cbn.
  { constructor. displays_by H1. }
  destruct (ok _); cbn; [|constructor; displays_by H1].
  constructor; [assumption|]. intros w2 H2.
  destruct b as [m|us|ss|eo]; cbn; try (constructor; displays_by H2).
  destruct (renderActiveFiltersText_cases
              (renderSentences (set_allSentences ss w2)))
    as [[t [-> _]]|[e [-> _]]]; cbn; constructor;
    rewrite renderSentences_eq; displays_by H2.
Qed.

Lemma loadUsersForFilter_displays w :
  Displays d w -> Preserves (Displays d) (loadUsersForFilter w).
Proof.
  intros Hw. unfold loadUsersForFilter, try_catch, bind, fetch, json,
    throw, act. cbn.
  constructor; [assumption|].
  intros reply w1 H1. destruct reply as [e|st b]; cbn.
  { constructor. displays_by H1. }
  destruct (ok _); cbn; [|constructor; displays_by H1].
  constructor; [assumption|]. intros w2 H2.
  destruct b as [m|us|ss|eo]; cbn; try (constructor; displays_by H2).
  constructor. rewrite fold_add_option. unfold select_value.
  displays_by H2.
Qed.

Lemma loadInitialData_displays w :
  Displays d w -> Preserves (Displays d) (loadInitialData w).
Proof.
  intros Hw. unfold loadInitialData, bind.
  apply preserves_bind; [now apply loadUsersForFilter_displays|].
  intros _ w1 H1. now apply fetchAndRenderSentences_displays.
Qed.

Lemma addSentence_displays w :
  Displays d w -> Preserves (Displays d) (addSentence w).
Proof.
  intros Hw.
  destruct (trim (sentenceInput w)) as [|c1 t1] eqn:Et.
  { unfold addSentence. rewrite Et. cbn. constructor. displays_by Hw. }
  destruct (trim (nameInput w)) as [|c2 t2] eqn:En.
  { unfold addSentence. rewrite Et, En. cbn. constructor. displays_by Hw. }
  destruct (addSentence_valid w) as [body [Heq [Hbody Herr]]];
    [rewrite Et; discriminate | rewrite En; discriminate |].
  rewrite Heq. apply preserves_finally; [|intros w' Hw'; displays_by Hw'].
  constructor; [displays_by Hw|].
  intros reply w1 H1. destruct reply as [e|st b].
  { rewrite Herr. constructor. displays_by H1. }
  rewrite Hbody. destruct (ok _).
  - apply preserves_catch; [|intros e w' Hw'; constructor; displays_by Hw'].
    apply loadInitialData_displays. displays_by H1.
  - destruct (Nat.eqb st 401); [constructor; displays_by H1|].
    constructor; [assumption|].
    intros w2 H2. constructor. displays_by H2.
Qed.

Lemma deleteSentence_displays id answer w :
  Displays d w -> Preserves (Displays d) (deleteSentence id answer w).
Proof.
  intros Hw. destruct answer.
  2:{ cbn. constructor. displays_by Hw. }
  destruct (deleteSentence_confirmed id w) as [body [Heq [Hbody Herr]]].
  rewrite Heq. constructor; [displays_by Hw|].
  intros reply w1 H1. destruct reply as [e|st b].
  { rewrite Herr. constructor. displays_by H1. }
  rewrite Hbody. destruct (ok _).
  - apply preserves_catch; [|intros e w' Hw'; constructor; displays_by Hw'].
    now apply loadInitialData_displays.
  - destruct (Nat.eqb st 403); [constructor; displays_by H1|].
    destruct (Nat.eqb st 401); [constructor; displays_by H1|].
    constructor; [assumption|].
    intros w2 H2. constructor. displays_by H2.
Qed.

Lemma listener_displays e w r :
  Displays d w -> listener e w = Some r -> Preserves (Displays d) r.
Proof.
  intros Hw. destruct e; cbn [listener]; intros E;
    try discriminate; try (injection E as <-).
  - constructor. displays_by Hw.
  - constructor. displays_by Hw.
  - constructor. displays_by Hw.
  - destruct (disabled _); [discriminate|]. injection E as <-.
    now apply addSentence_displays.
  - destruct (String.eqb key "Enter"); injection E as <-.
    + now apply addSentence_displays.
    + now constructor.
  - unfold handleFilterChange, bind, act. cbn [bind_run].
    apply fetchAndRenderSentences_displays. displays_by Hw.
  - unfold handleFilterChange, bind, act. cbn [bind_run].
    apply fetchAndRenderSentences_displays. displays_by Hw.
  - unfold handleFilterChange, bind, act. cbn [bind_run].
    apply fetchAndRenderSentences_displays. displays_by Hw.
  - unfold clearAllFilters, bind, act. cbn [bind_run].
    apply fetchAndRenderSentences_displays. unfold select_value. displays_by Hw.
  - constructor. unfold on_search_input, setTimeout, clearTimeout. cbn.
    destruct (searchTimeout w); displays_by Hw.
  - destruct (existsb _ _); [|discriminate]. injection E as <-.
    now apply deleteSentence_displays.
  - constructor. displays_by Hw.
  - destruct (due id w); [|discriminate]. injection E as <-.
    unfold on_search_timeout, handleFilterChange, bind, act. cbn [bind_run].
    apply fetchAndRenderSentences_displays. displays_by Hw.
Qed.

Lemma spawn_preserves (I : World -> Prop) (r : Run unit) pool :
  Preserves I r -> Forall (task_preserves I) pool ->
  page_preserves I (spawn r pool).
Proof.
  intros H Hp. inversion H; subst; cbn; (split; [assumption|]); cbn;
    try assumption; apply Forall_app; (split; [assumption|]);
    (constructor; [assumption | constructor]).
Qed.

Lemma react_displays p e p' :
  page_preserves (Displays d) p -> react p e = Some p' ->
  page_preserves (Displays d) p'.
Proof.
  intros [Hw Hp].
  destruct e; cbn [react];
    try (destruct (listener _ (world p)) as [r|] eqn:Hr; [|discriminate];
         intros E; injection E as <-;
         apply spawn_preserves; [|assumption];
         exact (listener_displays _ _ _ Hw Hr)).
  - destruct (take i (pending p)) as [[[req k|resp k] rest]|] eqn:Et;
      try discriminate.
    intros E; injection E as <-.
    destruct (take_Forall _ _ _ _ _ Et Hp) as [Hk Hrest].
    apply spawn_preserves; [|assumption]. now apply Hk.
  - destruct (take i (pending p)) as [[[req k|resp k] rest]|] eqn:Et;
      try discriminate.
    intros E; injection E as <-.
    destruct (take_Forall _ _ _ _ _ Et Hp) as [Hk Hrest].
    apply spawn_preserves; [|assumption]. now apply Hk.
Qed.

Lemma run_displays es : forall p p',
  page_preserves (Displays d) p -> run_events p es = Some p' ->
  page_preserves (Displays d) p'.
Proof.
  induction es as [|e es IH]; intros p p' Hp; simpl.
  - intros E; injection E as <-. assumption.
  - destruct (react p e) as [p1|] eqn:Hr; [|discriminate].
    apply IH. exact (react_displays _ _ _ Hp Hr).
Qed.

Lemma displays_invariant es p : Reaches d es p -> Displays d (world p).
Proof.
  intros H.
  assert (H0 : page_preserves (Displays d) (boot d)).
  { unfold boot, init. apply spawn_preserves; [|constructor].
    apply loadInitialData_displays.
    unfold Displays, location_ok, count_ok, users_ok. cbn. tauto. }
  exact (proj1 (run_displays es _ _ H0 H)).
Qed.

End DisplayInvariant.

Section MoreWitnesses.

Local Arguments trim : simpl never.

Ltac run_steps :=
  repeat first [apply Exec_done | eapply Exec_fetch | eapply Exec_json].

Lemma forbidden_delete_only_alerts_witness :
  exists wf,
    Exec (deleteSentence "65a2" true Sample.listed)
      [Fetched (DELETE "/api/sentences/65a2")
         (Arrived 403 (ErrorObject (Some "Forbidden"))) Sample.listed]
      wf (Ok tt)
    /\ location wf = "/dashboard".
Proof.
  assert (H : exists wf,
             Exec (deleteSentence "65a2" true Sample.listed)
               [Fetched (DELETE "/api/sentences/65a2")
                  (Arrived 403 (ErrorObject (Some "Forbidden")))
                  Sample.listed]
               wf (Ok tt)).
  { eexists. run_steps. }
  destruct H as [wf H]. exists wf. split; [exact H|].
  destruct (forbidden_delete_only_alerts _ _ _ _ _ _ _ _ H)
    as [_ [_ [L _]]].
  rewrite L. reflexivity.
Defined.


Lemma network_failure_alerts_witness :
  exists wf,
    Exec (addSentence Sample.ready)
      [Fetched (create_request Sample.ready)
         (NetworkError "Failed to fetch") Sample.ready]
      wf (Ok tt)
    /\ sentenceInput wf = " hi ".
Proof.
  assert (H : exists wf,
             Exec (addSentence Sample.ready)
               [Fetched (create_request Sample.ready)
                  (NetworkError "Failed to fetch") Sample.ready]
               wf (Ok tt)).
  { eexists. run_steps. }
  destruct H as [wf H]. exists wf. split; [exact H|].
  destruct (proj1 network_failure_alerts Sample.ready _ _ _ _ _ _
              ltac:(discriminate) ltac:(discriminate) H)
    as [_ [_ [S _]]].
  rewrite S. reflexivity.
Defined.

Lemma users_failure_does_not_stop_the_load_witness :
  exists wf,
    run_alone (loadInitialData Sample.ready)
      [Arrived 500 (Malformed "Unexpected token"); NetworkError "Failed to fetch"]
    = Some ([GET "/api/sentences/users"; GET (sentences_url Sample.ready)],
            wf, Ok tt)
    /\ userFilter wf = userFilter Sample.ready.
Proof.
  destruct (users_failure_does_not_stop_the_load Sample.ready
              (Arrived 500 (Malformed "Unexpected token"))
              (NetworkError "Failed to fetch") ltac:(cbn; lia))
    as [wf [H [U _]]].
  exists wf. split; [exact H | exact U].
Defined.

Lemma create_then_reload_witness :
  exists wf,
    run_alone (addSentence Sample.ready)
      [Arrived 201 (ErrorObject None); Arrived 200 (UserNames ["bob"]);
       Arrived 200 (Sentences [Sample.by_bob])]
    = Some ([create_request Sample.ready; GET "/api/sentences/users";
             GET (sentences_url Sample.ready)], wf, Ok tt)
    /\ sentenceInput wf = ""
    /\ allSentences wf = [Sample.by_bob].
Proof.
  destruct (create_then_reload Sample.ready 201 (ErrorObject None)
              200 ["bob"] 200 [Sample.by_bob]
              ltac:(discriminate) ltac:(discriminate) eq_refl
              ltac:(lia) ltac:(lia) ltac:(lia))
    as [wf [H [S [_ [_ [A _]]]]]].
  exists wf. split; [exact H|]. split; [exact S | exact A].
Defined.

Lemma failed_read_shows_error_line_witness :
  exists wf,
    Exec (fetchAndRenderSentences Sample.listed)
      [Fetched (GET (sentences_url Sample.listed))
         (Arrived 503 (Malformed "Unexpected token")) Sample.listed]
      wf (Ok tt)
    /\ sentencesList wf = [error_entry]
    /\ allSentences wf = [Sample.by_bob; Sample.by_amy].
Proof.
  assert (H : exists wf,
             Exec (fetchAndRenderSentences Sample.listed)
               [Fetched (GET (sentences_url Sample.listed))
                  (Arrived 503 (Malformed "Unexpected token")) Sample.listed]
               wf (Ok tt)).
  { eexists. run_steps. }
  destruct H as [wf H]. exists wf. split; [exact H|].
  destruct (failed_read_shows_error_line _ _ _ _ _ _ _ H
              ltac:(left; lia))
    as [w2 [[[_ ->]|[resp E]] [L [A _]]]]; [|discriminate E].
  split; [exact L|]. rewrite A. reflexivity.
Defined.


Lemma enter_submits_while_button_disabled_witness :
  react (spawn (addSentence Sample.ready) []) ClickAdd = None
  /\ exists p' k',
       react (spawn (addSentence Sample.ready) []) (Keypress "Enter")
       = Some p'
       /\ pending p'
          = app (pending (spawn (addSentence Sample.ready) []))
              [WaitFetch (create_request Sample.ready) k'].
Proof.
  destruct (enter_submits_while_button_disabled Sample.ready []
              ltac:(discriminate) ltac:(discriminate))
    as [_ [_ [H1 H2]]].
  split; [exact H1 | exact H2].
Defined.


End MoreWitnesses.

Section PageDisplay.

Local Arguments trim : simpl never.
Local Arguments string_of_nat : simpl never.

Lemma strip_any_space (c : ascii) (s : string) :
  is_ascii_space c = true -> strip_any js_whitespace (String c s) = Some s.
Proof.
  destruct c as [[] [] [] [] [] [] [] []]; intros H;
    try discriminate H; reflexivity.
Qed.

Lemma strip_all_space (s : string) : forall n,
  all_ascii_space s = true -> String.length s <= n ->
  strip_all js_whitespace n s = "".
Proof.
  induction s as [|c s IH]; intros n Hs Hn.
  - destruct n; reflexivity.
  - destruct n as [|n]; [simpl in Hn; lia|].
    simpl in Hs. apply andb_true_iff in Hs as [Hc Hs].
    cbn [strip_all]. rewrite (strip_any_space c s Hc).
    apply IH; [assumption | simpl in Hn; lia].
Qed.

Lemma trim_all_space (s : string) : all_ascii_space s = true -> trim s = "".
Proof.
  intros Hs. unfold trim, trimStart.
  rewrite (strip_all_space s _ Hs (le_n _)). reflexivity.
Qed.

(** X16. A message, or a name, made of nothing but spaces, tabs and line
    breaks is refused like an empty one: [addSentence] shows the alert and
    sends nothing. *)
Theorem whitespace_only_is_rejected (w : World) :
  all_ascii_space (sentenceInput w) = true
  \/ all_ascii_space (nameInput w) = true ->
  addSentence w = Done (alert "Your message cannot be empty." w) (Ok tt).
Proof.
  intros [H|H]; apply trim_all_space in H; unfold addSentence; rewrite H.
  - reflexivity.
  - destruct (truthy (trim (sentenceInput w))); reflexivity.
Qed.

Lemma whitespace_only_is_rejected_witness :
  addSentence (set_sentenceInput (" " ++ byte 9 ++ byte 10 ++ "  ") Sample.ready)
  = Done (alert "Your message cannot be empty."
            (set_sentenceInput (" " ++ byte 9 ++ byte 10 ++ "  ") Sample.ready))
      (Ok tt).
Proof.
  apply (whitespace_only_is_rejected
           (set_sentenceInput (" " ++ byte 9 ++ byte 10 ++ "  ") Sample.ready)).
  left. reflexivity.
Defined.

(** X17. On every page a history leads to, the location is the one the
    page was loaded at or the login route: the controller navigates
    nowhere else. *)
Theorem only_navigates_to_login d es p :
  Reaches d es p ->
  location (world p) = location d \/ location (world p) = "/auth/login".
Proof.
  intros H. exact (proj1 (displays_invariant d es p H)).
Qed.

Lemma only_navigates_to_login_witness :
  exists p,
    Reaches Sample.doc Sample.failed_refresh p
    /\ (location (world p) = "/dashboard"
        \/ location (world p) = "/auth/login").
Proof.
  destruct failed_refresh_page as [p [H _]].
  exists p. split; [exact H|].
  exact (only_navigates_to_login _ _ _ H).
Defined.

(** X18. On every page a history of replies within the contract leads
    to, the count is the text the page was loaded with, or [<n> Messages]
    for the number of sentences the last successful sentence fetch
    returned; this holds also while the list shows the error line of a
    later, failed read. *)
Theorem count_is_of_last_fetch d es p :
  Reaches d es p -> contract_kept (boot d) es = true ->
  sentencesCount (world p) = sentencesCount d
  \/ sentencesCount (world p)
     = string_of_nat
         (List.length (cached (last_fetched (boot d) es None)))
       ++ " Messages".
Proof.
  intros H _.
  destruct (displays_invariant d es p H) as [_ [C _]].
  destruct (page_invariant d es p H) as [_ [A _]].
  unfold count_ok in C. rewrite A in C. exact C.
Qed.

Lemma count_is_of_last_fetch_witness :
  exists p,
    Reaches Sample.doc Sample.failed_refresh p
    /\ sentencesList (world p) = [error_entry]
    /\ sentencesCount (world p) = "2 Messages".
Proof.
  destruct failed_refresh_page as [p [H [L F]]].
  exists p. split; [exact H|]. split; [exact L|].
  assert (K : contract_kept (boot Sample.doc) Sample.failed_refresh = true)
    by (vm_compute; reflexivity).
  destruct (count_is_of_last_fetch _ _ _ H K) as [C|C].
  - exfalso.
    assert (N : option_map (fun q => sentencesCount (world q))
                  (run_events (boot Sample.doc) Sample.failed_refresh)
                = Some "2 Messages") by (vm_compute; reflexivity).
    unfold Reaches in H. rewrite H in N. cbn in N.
    injection N as N. rewrite N in C. discriminate C.
  - rewrite C, F. reflexivity.
Defined.

(** X19. On every page a history of replies within the contract leads
    to, the options of the user filter are those the page was loaded
    with, or [All Users] followed by one option per cached user name, in
    order. *)
Theorem user_options_follow_cache d es p :
  Reaches d es p -> contract_kept (boot d) es = true ->
  options (userFilter (world p)) = options (userFilter d)
  \/ options (userFilter (world p))
     = ("all", "All Users")
       :: map (fun u => (u, u)) (allUsers (world p)).
Proof.
  intros H _. exact (proj2 (proj2 (displays_invariant d es p H))).
Qed.

Lemma user_options_follow_cache_witness :
  exists p,
    Reaches Sample.doc Sample.failed_refresh p
    /\ (options (userFilter (world p)) = [("all", "All Users")]
        \/ options (userFilter (world p))
           = ("all", "All Users")
             :: map (fun u => (u, u)) (allUsers (world p))).
Proof.
  destruct failed_refresh_page as [p [H _]].
  exists p. split; [exact H|].
  assert (K : contract_kept (boot Sample.doc) Sample.failed_refresh = true)
    by (vm_compute; reflexivity).
  exact (user_options_follow_cache _ _ _ H K).
Defined.

End PageDisplay.
